(** * anamericano-golang: the resilient request executor

    A shallow embedding of [client.go] and [permissions.go] of the
    [anamericano] package: the four credential strategies, the error model,
    [NewClient], the retry loop of [doRequest] and the six domain operations
    of the client facade.

    The collaborators the package calls but does not implement
    (encoding/json, the fasthttp transport, a token provider, the select on
    the caller's context) are taken as oracles, collected in [Env] and in
    [TokenProvider].  Every call to a collaborator is also written to a
    trace of [Event]s, so that "how many attempts", "which bytes were sent"
    and "what happened before what" are statements about a list. *)

From Stdlib Require Import ZArith List String Bool Lia.
From Stdlib Require Import Strings.Byte.
Import ListNotations.

Open Scope string_scope.
Open Scope Z_scope.

(** ** Data *)

(** A [[]byte]. *)
Definition Bytes := list byte.

(** [time.Duration] is an int64 count of nanoseconds. *)
Definition Duration := Z.

Definition Second : Duration := 1000000000.

(** Two's complement wrap-around of a 64-bit signed integer. *)
Definition wrap64 (x : Z) : Z := (x + 2 ^ 63) mod 2 ^ 64 - 2 ^ 63.

(** [a * b] on [time.Duration]. *)
Definition Duration_mul (a b : Duration) : Duration := wrap64 (a * b).

Arguments wrap64 : simpl never.
Arguments Duration_mul : simpl never.

(** The error a done context reports from [ctx.Err()]. *)
Inductive CtxErr : Type :=
| Canceled
| DeadlineExceeded.

(** [APIError] of client.go. *)
Record APIError : Type := mkAPIError {
  Timestamp : string;
  Status : Z;
  ErrorType : string;
  Message : string;
  Path : string
}.

(** Go [error] values, as far as this package builds and inspects them.
    [wrapError msg cause] is [fmt.Errorf(msg + ": %w", cause)]; the cause is
    optional because [lastErr] may still be nil when it is wrapped.
    [httpError code body] is [fmt.Errorf("HTTP %d: %s", code, string(body))].
    [apiError e] is a [*APIError], the only error the retry loop recognises
    by type. *)
#[warnings="-register-all"] Inductive GoError : Type :=
| errorString (s : string)
| wrapError (msg : string) (cause : option GoError)
| httpError (statusCode : Z) (body : Bytes)
| apiError (e : APIError)
| ctxError (e : CtxErr).

(** A [context.Context]: its identity and the value stored under the
    package-private [tokenContextKey], if any. *)
Record Context : Type := mkContext {
  ctxId : nat;
  ctxToken : option string
}.

(** [context.Background()]. *)
Definition Background : Context := mkContext 0 None.

(** [WithToken]. *)
Definition WithToken (ctx : Context) (token : string) : Context :=
  mkContext (S (ctxId ctx)) (Some token).

(** A [fasthttp.Request], reduced to what the client sets. *)
Record Request : Type := mkRequest {
  RequestURI : string;
  Method : string;
  Body : Bytes;
  ContentType : option string;
  Authorization : option string
}.

(** [fasthttp.AcquireRequest()]: a blank request. *)
Definition AcquireRequest : Request := mkRequest "" "GET" [] None None.

Definition SetRequestURI (req : Request) (uri : string) : Request :=
  mkRequest uri (Method req) (Body req) (ContentType req) (Authorization req).

Definition SetMethod (req : Request) (m : string) : Request :=
  mkRequest (RequestURI req) m (Body req) (ContentType req) (Authorization req).

Definition SetBody (req : Request) (b : Bytes) : Request :=
  mkRequest (RequestURI req) (Method req) b (ContentType req) (Authorization req).

Definition SetContentType (req : Request) (ct : string) : Request :=
  mkRequest (RequestURI req) (Method req) (Body req) (Some ct) (Authorization req).

(** [req.Header.Set("Authorization", v)]. *)
Definition SetAuthorization (req : Request) (v : string) : Request :=
  mkRequest (RequestURI req) (Method req) (Body req) (ContentType req) (Some v).

(** A [fasthttp.Response]: status code and body. *)
Record Response : Type := mkResponse {
  StatusCode : Z;
  RespBody : Bytes
}.

(** ** Authenticators *)

(** [TokenProvider].  A provider may answer differently every time it is
    asked; [doRequest] asks it once per attempt, so its answers are indexed
    by the attempt number. *)
Record TokenProvider : Type := mkTokenProvider {
  GetToken : Z -> Context -> GoError + string
}.

(** The implementations of the [Authenticator] interface in client.go.
    Each is a pointer to a struct; the [ctx] fields are nil until set. *)
Inductive Authenticator : Type :=
| BearerTokenAuth (Token : string)
| OAuthTokenAuth (AccessToken : string)
| DynamicTokenAuth (Provider : TokenProvider) (ctx : option Context)
| ContextTokenAuth (ctx : option Context).

Definition BearerTokenAuth_AuthenticateFastHTTP
    (Token : string) (req : Request) : GoError + Request :=
  if (Token =? "")%string then inl (errorString "bearer token is empty")
  else inr (SetAuthorization req ("Bearer " ++ Token)).

Definition OAuthTokenAuth_AuthenticateFastHTTP
    (AccessToken : string) (req : Request) : GoError + Request :=
  if (AccessToken =? "")%string then inl (errorString "oauth access token is empty")
  else inr (SetAuthorization req ("Bearer " ++ AccessToken)).

Definition DynamicTokenAuth_AuthenticateFastHTTP
    (Provider : TokenProvider) (dctx : option Context) (attempt : Z)
    (req : Request) : GoError + Request :=
  let ctx := match dctx with
             | None => Background
             | Some c => c
             end in
  match GetToken Provider attempt ctx with
  | inl err => inl (wrapError "failed to get token" (Some err))
  | inr token =>
      if (token =? "")%string then inl (errorString "token is empty")
      else inr (SetAuthorization req ("Bearer " ++ token))
  end.

Definition ContextTokenAuth_AuthenticateFastHTTP
    (cctx : option Context) (req : Request) : GoError + Request :=
  match cctx with
  | None => inl (errorString "no context set")
  | Some ctx =>
      match ctxToken ctx with
      | None => inl (errorString "no token found in context")
      | Some token =>
          if (token =? "")%string
          then inl (errorString "no token found in context")
          else inr (SetAuthorization req ("Bearer " ++ token))
      end
  end.

(** Dynamic dispatch of [AuthenticateFastHTTP]. *)
Definition AuthenticateFastHTTP
    (a : Authenticator) (attempt : Z) (req : Request) : GoError + Request :=
  match a with
  | BearerTokenAuth t => BearerTokenAuth_AuthenticateFastHTTP t req
  | OAuthTokenAuth t => OAuthTokenAuth_AuthenticateFastHTTP t req
  | DynamicTokenAuth p c => DynamicTokenAuth_AuthenticateFastHTTP p c attempt req
  | ContextTokenAuth c => ContextTokenAuth_AuthenticateFastHTTP c req
  end.

(** ** Error classification *)

Definition StatusBadRequest : Z := 400.
Definition StatusUnauthorized : Z := 401.
Definition StatusForbidden : Z := 403.
Definition StatusNotFound : Z := 404.

Definition IsPermissionDenied (e : APIError) : bool := Status e =? StatusForbidden.
Definition IsUnauthorized (e : APIError) : bool := Status e =? StatusUnauthorized.
Definition IsNotFound (e : APIError) : bool := Status e =? StatusNotFound.
Definition IsBadRequest (e : APIError) : bool := Status e =? StatusBadRequest.

(** ** Client and options *)

Inductive Logger : Type :=
| DefaultLogger
| NoOpLogger.

Record ClientOptions : Type := mkClientOptions {
  Timeout : Duration;
  MaxRetries : Z;
  RetryDelay : Duration;
  logger : option Logger;
  MaxConnsPerHost : Z;
  MaxIdleConnDuration : Duration
}.

Record Client : Type := mkClient {
  auth : option Authenticator;
  options : ClientOptions
}.

Definition defaultTimeout : Duration := 30 * Second.
Definition defaultMaxRetries : Z := 3.
Definition defaultRetryDelay : Duration := 1 * Second.
Definition baseURL : string := "https://accounts.ana.st".

Definition orDefault (x d : Z) : Z := if x =? 0 then d else x.

(** [NewClient]: nil options give the defaults, and every zero field of
    supplied options is replaced by its default. *)
Definition NewClient (a : option Authenticator) (opts : option ClientOptions) : Client :=
  let opts :=
    match opts with
    | None => mkClientOptions defaultTimeout defaultMaxRetries defaultRetryDelay
                None 512 (10 * Second)
    | Some o => o
    end in
  mkClient a
    (mkClientOptions
       (orDefault (Timeout opts) defaultTimeout)
       (orDefault (MaxRetries opts) defaultMaxRetries)
       (orDefault (RetryDelay opts) defaultRetryDelay)
       (logger opts)
       (orDefault (MaxConnsPerHost opts) 512)
       (orDefault (MaxIdleConnDuration opts) (10 * Second))).

(** [SetAuth]. *)
Definition SetAuth (c : Client) (a : option Authenticator) : Client :=
  mkClient a (options c).

(** ** Domain requests and responses (permissions.go) *)

Module PermissionCheckRequest.
Record t : Type := mk {
  SubjectType : string;
  SubjectID : string;
  Relation : string;
  ObjectNamespace : string;
  ObjectID : string
}.

Definition Validate (r : t) : option GoError :=
  if (SubjectType r =? "")%string then Some (errorString "subjectType is required")
  else if (SubjectID r =? "")%string then Some (errorString "subjectId is required")
  else if (Relation r =? "")%string then Some (errorString "relation is required")
  else if (ObjectNamespace r =? "")%string then Some (errorString "objectNamespace is required")
  else if (ObjectID r =? "")%string then Some (errorString "objectId is required")
  else None.
End PermissionCheckRequest.

Module PermissionCheckResponse.
Record t : Type := mk {
  Allowed : bool;
  Message : string
}.
End PermissionCheckResponse.

Module PermissionWriteRequest.
Record t : Type := mk {
  ObjectNamespace : string;
  ObjectID : string;
  Relation : string;
  SubjectType : string;
  SubjectID : string;
  SubjectRelation : option string
}.

Definition Validate (r : t) : option GoError :=
  if (ObjectNamespace r =? "")%string then Some (errorString "objectNamespace is required")
  else if (ObjectID r =? "")%string then Some (errorString "objectId is required")
  else if (Relation r =? "")%string then Some (errorString "relation is required")
  else if (SubjectType r =? "")%string then Some (errorString "subjectType is required")
  else if (SubjectID r =? "")%string then Some (errorString "subjectId is required")
  else None.
End PermissionWriteRequest.

Module PermissionDeleteRequest.
Record t : Type := mk {
  ObjectNamespace : string;
  ObjectID : string;
  Relation : string;
  SubjectType : string;
  SubjectID : string
}.

Definition Validate (r : t) : option GoError :=
  if (ObjectNamespace r =? "")%string then Some (errorString "objectNamespace is required")
  else if (ObjectID r =? "")%string then Some (errorString "objectId is required")
  else if (Relation r =? "")%string then Some (errorString "relation is required")
  else if (SubjectType r =? "")%string then Some (errorString "subjectType is required")
  else if (SubjectID r =? "")%string then Some (errorString "subjectId is required")
  else None.
End PermissionDeleteRequest.

Module Permission.
Record t : Type := mk {
  ID : Z;
  ObjectNamespace : string;
  ObjectID : string;
  Relation : string;
  SubjectType : string;
  SubjectID : string;
  SubjectRelation : option string;
  CreatedAt : string
}.

(** [String]: the tuple as object#relation@subject, the subject followed
    by its own relation when it has one. *)
Definition String (p : t) : string :=
  match SubjectRelation p with
  | Some subjectRelation =>
      ObjectNamespace p ++ ":" ++ ObjectID p ++ "#" ++ Relation p ++ "@"
      ++ SubjectType p ++ ":" ++ SubjectID p ++ "#" ++ subjectRelation
  | None =>
      ObjectNamespace p ++ ":" ++ ObjectID p ++ "#" ++ Relation p ++ "@"
      ++ SubjectType p ++ ":" ++ SubjectID p
  end.
End Permission.

(** What [doRequest] is given as [body interface{}]. *)
Inductive Payload : Type :=
| CheckPayload (r : PermissionCheckRequest.t)
| WritePayload (r : PermissionWriteRequest.t)
| DeletePayload (r : PermissionDeleteRequest.t).

(** What [result interface{}] points to: the Go type to decode into. *)
Inductive Sink : Type :=
| IntoCheckResponse
| IntoPermission
| IntoPermissions
| IntoStrings.

(** What a sink holds after a successful decode. *)
Inductive Value : Type :=
| CheckResponseValue (r : PermissionCheckResponse.t)
| PermissionValue (p : Permission.t)
| PermissionsValue (ps : list Permission.t)
| StringsValue (ss : list string).

(** ** Collaborators and the trace *)

(** The collaborators of one logical call.  [DoTimeout] and [ctx_Done] are
    asked at most once per attempt and are indexed by the attempt number:
    [ctx_Done k = Some e] says that the select before attempt [k] takes
    the [ctx.Done()] case and [ctx.Err()] is [e]; [None] says the timer
    fires. *)
Record Env : Type := mkEnv {
  json_Marshal : Payload -> GoError + Bytes;
  json_Unmarshal : Sink -> Bytes -> GoError + Value;
  json_Unmarshal_APIError : Bytes -> option APIError;
  DoTimeout : Z -> Request -> Duration -> GoError + Response;
  ctx_Done : Z -> option CtxErr
}.

Inductive LogLevel : Type :=
| LogInfo
| LogError
| LogDebug.

Inductive Event : Type :=
| EvMarshal (body : Payload)
| EvTimer (attempt : Z) (backoffDelay : Duration)
| EvLog (level : LogLevel) (msg : string)
| EvAcquire (attempt : Z)
| EvAuthenticate (attempt : Z) (a : Authenticator)
| EvDoTimeout (attempt : Z) (req : Request) (timeout : Duration).

(** What a call leaves behind: the calls it made, the error it returns
    (nil is [None]) and what it decoded into the sink. *)
Record Outcome : Type := mkOutcome {
  trace : list Event;
  err : option GoError;
  value : option Value
}.

Definition before (evs : list Event) (o : Outcome) : Outcome :=
  mkOutcome (evs ++ trace o)%list (err o) (value o).

(** The body of one attempt either stops with an error or goes on with a
    value; either way it has made some calls. *)
Definition Att (A : Type) : Type := (list Event * (GoError + A))%type.

Definition ret {A : Type} (x : A) : Att A := ([], inr x).
Definition fail {A : Type} (e : GoError) : Att A := ([], inl e).
Definition emit (ev : Event) : Att unit := ([ev], inr tt).

Definition bind {A B : Type} (m : Att A) (k : A -> Att B) : Att B :=
  match m with
  | (evs, inl e) => (evs, inl e)
  | (evs, inr x) => let (evs', r) := k x in ((evs ++ evs')%list, r)
  end.

Declare Scope att_scope.
Delimit Scope att_scope with att.
Notation "x <- m ;; k" := (bind m (fun x => k))
  (at level 61, m at next level, right associativity) : att_scope.
Notation "m ;; k" := (bind m (fun _ => k))
  (at level 61, right associativity) : att_scope.

(** A call on the optional logger. *)
Definition log (c : Client) (level : LogLevel) (msg : string) : list Event :=
  match logger (options c) with
  | Some _ => [EvLog level msg]
  | None => []
  end.

(** ** The request executor (client.go, doRequest) *)

(** The 4xx-other-than-429 test, used on the response status inside an
    attempt and on the decoded [APIError.Status] by the loop. *)
Definition isClientError (status : Z) : bool :=
  (400 <=? status) && (status <? 500) && negb (status =? 429).

(** The context hand-over at the head of [doRequest]. *)
Definition injectContext (a : option Authenticator) (ctx : Context) : option Authenticator :=
  match a with
  | Some (ContextTokenAuth _) => Some (ContextTokenAuth (Some ctx))
  | Some (DynamicTokenAuth p _) => Some (DynamicTokenAuth p (Some ctx))
  | other => other
  end.

(** The request as it is built before it is stamped. *)
Definition newRequest (url method : string) (jsonData : Bytes) : Request :=
  let req := SetMethod (SetRequestURI AcquireRequest url) method in
  match jsonData with
  | [] => req
  | _ :: _ => SetContentType (SetBody req jsonData) "application/json"
  end.

Section Executor.
Variable env : Env.

(** The anonymous function called once per attempt. *)
Definition attemptOnce (c : Client) (url method : string) (jsonData : Bytes)
    (result : option Sink) (attempt : Z) : Att (option Value) :=
  (emit (EvAcquire attempt) ;;
   let req := newRequest url method jsonData in
   req <- match auth c with
          | None => ret req
          | Some a =>
              emit (EvAuthenticate attempt a) ;;
              match AuthenticateFastHTTP a attempt req with
              | inl e => fail (wrapError "authentication failed" (Some e))
              | inr req' => ret req'
              end
          end ;;
   emit (EvDoTimeout attempt req (Timeout (options c))) ;;
   match DoTimeout env attempt req (Timeout (options c)) with
   | inl e => fail (wrapError "request failed" (Some e))
   | inr resp =>
       let statusCode := StatusCode resp in
       let bodyBytes := RespBody resp in
       if (200 <=? statusCode) && (statusCode <? 300) then
         match result, bodyBytes with
         | Some sink, _ :: _ =>
             match json_Unmarshal env sink bodyBytes with
             | inl e => fail (wrapError "failed to unmarshal response" (Some e))
             | inr v => ret (Some v)
             end
         | _, _ => ret None
         end
       else
         match json_Unmarshal_APIError env bodyBytes with
         | None => fail (httpError statusCode bodyBytes)
         | Some apiErr =>
             if isClientError statusCode then
               (log c LogError "client error", inl (apiError apiErr))
             else
               (log c LogError "server error, will retry", inl (apiError apiErr))
         end
   end)%att.

(** The attempt loop, [n] iterations from [attempt] on, with the error
    recorded so far.  [go] is the rest of an iteration once its sleep is
    over: the attempt, and what the loop makes of the error it returns. *)
Fixpoint retryLoop (c : Client) (url method : string) (jsonData : Bytes)
    (result : option Sink) (n : nat) (attempt : Z)
    (lastErr : option GoError) : Outcome :=
  match n with
  | O => mkOutcome [] (Some (wrapError "max retries exceeded" lastErr)) None
  | S n' =>
      let go (_ : unit) : Outcome :=
        match attemptOnce c url method jsonData result attempt with
        | (evs, inr v) => mkOutcome evs None v
        | (evs, inl (apiError apiErr)) =>
            if isClientError (Status apiErr) then
              mkOutcome evs (Some (apiError apiErr)) None
            else
              before evs
                (retryLoop c url method jsonData result n' (attempt + 1)
                   (Some (apiError apiErr)))
        | (evs, inl e) =>
            before (evs ++ log c LogError "request error")%list
              (retryLoop c url method jsonData result n' (attempt + 1) (Some e))
        end in
      if 0 <? attempt then
        let backoffDelay := Duration_mul (RetryDelay (options c)) attempt in
        match ctx_Done env attempt with
        | Some e => mkOutcome [EvTimer attempt backoffDelay] (Some (ctxError e)) None
        | None =>
            before (EvTimer attempt backoffDelay :: log c LogDebug "retrying request")
              (go tt)
        end
      else go tt
  end.

(** [doRequest].  The caller's context is non-nil, as package context
    requires.  The loop runs for attempt = 0 .. MaxRetries, that is
    MaxRetries + 1 times, and not at all for a negative MaxRetries
    (MaxRetries below the largest int, so that [attempt++] does not wrap).
    The first component of the result is the client as the call leaves it:
    the authenticator keeps the context it was handed. *)
Definition doRequest (c : Client) (ctx : Context) (method path : string)
    (body : option Payload) (result : option Sink) : Client * Outcome :=
  let url := baseURL ++ path in
  let c := mkClient (injectContext (auth c) ctx) (options c) in
  let loop (jsonData : Bytes) : Outcome :=
    retryLoop c url method jsonData result
      (Z.to_nat (MaxRetries (options c) + 1)) 0 None in
  match body with
  | None => (c, loop [])
  | Some b =>
      match json_Marshal env b with
      | inl marshalErr =>
          (c, mkOutcome [EvMarshal b]
                (Some (wrapError "failed to marshal request body" (Some marshalErr)))
                None)
      | inr jsonData => (c, before [EvMarshal b] (loop jsonData))
      end
  end.

End Executor.

(** ** The client facade (permissions.go) *)

Section Facade.
Variable env : Env.

(** An early return that touches neither the authenticator nor the
    transport. *)
Definition reject (c : Client) (e : GoError) : Client * Outcome :=
  (c, mkOutcome [] (Some e) None).

(** [if err != nil { return nil, err }; return &resp, nil] for a sink whose
    zero value is [zero]. *)
Definition orNil (zero : Value) (r : Client * Outcome) : Client * Outcome :=
  let (c, o) := r in
  match err o with
  | Some e => (c, mkOutcome (trace o) (Some e) None)
  | None =>
      (c, mkOutcome (trace o) None
            (Some match value o with
                  | Some v => v
                  | None => zero
                  end))
  end.

Definition CheckPermission (c : Client) (ctx : Context)
    (req : option PermissionCheckRequest.t) : Client * Outcome :=
  match req with
  | None => reject c (errorString "permission check request is nil")
  | Some r =>
      match PermissionCheckRequest.Validate r with
      | Some e => reject c (wrapError "invalid request" (Some e))
      | None =>
          orNil (CheckResponseValue (PermissionCheckResponse.mk false ""))
            (doRequest env c ctx "POST" "/api/anamericano/check"
               (Some (CheckPayload r)) (Some IntoCheckResponse))
      end
  end.

Definition WritePermission (c : Client) (ctx : Context)
    (req : option PermissionWriteRequest.t) : Client * Outcome :=
  match req with
  | None => reject c (errorString "permission write request is nil")
  | Some r =>
      match PermissionWriteRequest.Validate r with
      | Some e => reject c (wrapError "invalid request" (Some e))
      | None =>
          orNil (PermissionValue (Permission.mk 0 "" "" "" "" "" None ""))
            (doRequest env c ctx "POST" "/api/anamericano/write"
               (Some (WritePayload r)) (Some IntoPermission))
      end
  end.

Definition DeletePermission (c : Client) (ctx : Context)
    (req : option PermissionDeleteRequest.t) : Client * Outcome :=
  match req with
  | None => reject c (errorString "permission delete request is nil")
  | Some r =>
      match PermissionDeleteRequest.Validate r with
      | Some e => reject c (wrapError "invalid request" (Some e))
      | None =>
          doRequest env c ctx "DELETE" "/api/anamericano/delete"
            (Some (DeletePayload r)) None
      end
  end.

(** [fmt.Sprintf] with only [%s] verbs and string arguments is
    concatenation. *)
Definition ReadPermissions (c : Client) (ctx : Context)
    (namespace objectID : string) : Client * Outcome :=
  if (namespace =? "")%string then reject c (errorString "namespace is required")
  else if (objectID =? "")%string then reject c (errorString "objectId is required")
  else
    let path := "/api/anamericano/read/" ++ namespace ++ "/" ++ objectID in
    doRequest env c ctx "GET" path None (Some IntoPermissions).

Definition ExpandPermissions (c : Client) (ctx : Context)
    (namespace objectID relation : string) : Client * Outcome :=
  if (namespace =? "")%string then reject c (errorString "namespace is required")
  else if (objectID =? "")%string then reject c (errorString "objectId is required")
  else if (relation =? "")%string then reject c (errorString "relation is required")
  else
    let path := "/api/anamericano/expand/" ++ namespace ++ "/" ++ objectID
                ++ "/" ++ relation in
    doRequest env c ctx "GET" path None (Some IntoStrings).

Definition ListObjects (c : Client) (ctx : Context)
    (subjectType subjectID relation namespace : string) : Client * Outcome :=
  if (subjectType =? "")%string then reject c (errorString "subjectType is required")
  else if (subjectID =? "")%string then reject c (errorString "subjectId is required")
  else if (relation =? "")%string then reject c (errorString "relation is required")
  else if (namespace =? "")%string then reject c (errorString "namespace is required")
  else
    let path := "/api/anamericano/list/" ++ subjectType ++ "/" ++ subjectID
                ++ "/" ++ relation ++ "/" ++ namespace in
    doRequest env c ctx "GET" path None (Some IntoStrings).

End Facade.

(** ** Reading a trace *)

Definition isAcquire (ev : Event) : bool :=
  match ev with EvAcquire _ => true | _ => false end.

Definition isDoTimeout (ev : Event) : bool :=
  match ev with EvDoTimeout _ _ _ => true | _ => false end.

Definition isMarshal (ev : Event) : bool :=
  match ev with EvMarshal _ => true | _ => false end.

Definition isAuthenticateAt (k : Z) (ev : Event) : bool :=
  match ev with EvAuthenticate j _ => j =? k | _ => false end.

(** Attempts begun: how many times the per-attempt function was entered. *)
Definition attempts (tr : list Event) : Z := Z.of_nat (List.length (filter isAcquire tr)).

(** Requests handed to the transport. *)
Definition sends (tr : list Event) : Z := Z.of_nat (List.length (filter isDoTimeout tr)).

(** Calls of [json.Marshal]. *)
Definition marshals (tr : list Event) : Z := Z.of_nat (List.length (filter isMarshal tr)).

(** Calls of the authenticator during attempt [k]. *)
Definition stampsAt (k : Z) (tr : list Event) : Z :=
  Z.of_nat (List.length (filter (isAuthenticateAt k) tr)).

(** What the authentication step of an attempt does to the request. *)
Definition stamp (a : option Authenticator) (attempt : Z) (req : Request)
    : GoError + Request :=
  match a with
  | None => inr req
  | Some a => AuthenticateFastHTTP a attempt req
  end.

Definition stampEvents (a : option Authenticator) (attempt : Z) : list Event :=
  match a with
  | None => []
  | Some a => [EvAuthenticate attempt a]
  end.

(** The context an authenticator would read at its next call. *)
Definition authContext (a : Authenticator) : option Context :=
  match a with
  | DynamicTokenAuth _ c => c
  | ContextTokenAuth c => c
  | _ => None
  end.

Definition contextAware (a : Authenticator) : bool :=
  match a with
  | DynamicTokenAuth _ _ | ContextTokenAuth _ => true
  | _ => false
  end.

Definition isLog (ev : Event) : bool :=
  match ev with EvLog _ _ => true | _ => false end.

Definition isTimer (ev : Event) : bool :=
  match ev with EvTimer _ _ => true | _ => false end.

(** What the loop does before attempt [attempt] when it is not cancelled. *)
Definition backoffEvents (c : Client) (attempt : Z) : list Event :=
  if 0 <? attempt
  then EvTimer attempt (Duration_mul (RetryDelay (options c)) attempt)
         :: log c LogDebug "retrying request"
  else [].

(** The client as [doRequest] uses it, once the context is handed over. *)
Definition injected (c : Client) (ctx : Context) : Client :=
  mkClient (injectContext (auth c) ctx) (options c).

(** The bytes [doRequest] holds in [jsonData] when it enters the loop. *)
Definition jsonOf (env : Env) (body : option Payload) : GoError + Bytes :=
  match body with
  | None => inr []
  | Some b => json_Marshal env b
  end.

Definition marshalEvents (body : option Payload) : list Event :=
  match body with
  | None => []
  | Some b => [EvMarshal b]
  end.

Section Reading.
Variable env : Env.
Variable c : Client.
Variables url method : string.
Variable jsonData : Bytes.

(** The response the transport gives to attempt [k], if the stamp of
    that attempt succeeds and the transport answers. *)
Definition responseAt (k : Z) : option Response :=
  match stamp (auth c) k (newRequest url method jsonData) with
  | inl _ => None
  | inr req =>
      match DoTimeout env k req (Timeout (options c)) with
      | inl _ => None
      | inr resp => Some resp
      end
  end.


(** Events an attempt [k] makes after its stamp: the transport call, with
    the stamped request, and log lines. *)
Definition afterStamp (k : Z) (ev : Event) : Prop :=
  match ev with
  | EvLog _ _ => True
  | EvDoTimeout j req t =>
      j = k /\ t = Timeout (options c) /\
      stamp (auth c) k (newRequest url method jsonData) = inr req
  | _ => False
  end.

(** What every event of the loop running attempts [lo .. hi-1] looks
    like. *)
Definition loopEvent (lo hi : Z) (ev : Event) : Prop :=
  match ev with
  | EvMarshal _ => False
  | EvTimer k d =>
      lo <= k < hi /\ 0 < k /\ d = Duration_mul (RetryDelay (options c)) k
  | EvLog _ _ => True
  | EvAcquire k => lo <= k < hi
  | EvAuthenticate k a => lo <= k < hi /\ auth c = Some a
  | EvDoTimeout k req t =>
      lo <= k < hi /\ t = Timeout (options c) /\
      RequestURI req = url /\ Method req = method /\ Body req = jsonData
  end.

End Reading.



(** Required fields of the three request structs. *)
Definition checkInvalid (req : option PermissionCheckRequest.t) : Prop :=
  match req with
  | None => True
  | Some r =>
      PermissionCheckRequest.SubjectType r = "" \/
      PermissionCheckRequest.SubjectID r = "" \/
      PermissionCheckRequest.Relation r = "" \/
      PermissionCheckRequest.ObjectNamespace r = "" \/
      PermissionCheckRequest.ObjectID r = ""
  end.

Definition writeInvalid (req : option PermissionWriteRequest.t) : Prop :=
  match req with
  | None => True
  | Some r =>
      PermissionWriteRequest.ObjectNamespace r = "" \/
      PermissionWriteRequest.ObjectID r = "" \/
      PermissionWriteRequest.Relation r = "" \/
      PermissionWriteRequest.SubjectType r = "" \/
      PermissionWriteRequest.SubjectID r = ""
  end.

Definition deleteInvalid (req : option PermissionDeleteRequest.t) : Prop :=
  match req with
  | None => True
  | Some r =>
      PermissionDeleteRequest.ObjectNamespace r = "" \/
      PermissionDeleteRequest.ObjectID r = "" \/
      PermissionDeleteRequest.Relation r = "" \/
      PermissionDeleteRequest.SubjectType r = "" \/
      PermissionDeleteRequest.SubjectID r = ""
  end.

(** ** Sample collaborators and clients *)

Definition sampleJSON : Bytes := ["{"%byte; "}"%byte].

Definition notFound : APIError :=
  mkAPIError "2025-11-22T09:00:00Z" 404 "Not Found" "no such object" "/api/anamericano/check".

Definition tooManyRequests : APIError :=
  mkAPIError "2025-11-22T09:00:00Z" 429 "Too Many Requests" "slow down" "/api/anamericano/check".

Definition internalError : APIError :=
  mkAPIError "2025-11-22T09:00:00Z" 500 "Internal Server Error" "try later" "/api/anamericano/check".

(** A server that gives the same response to every request.  Bodies of
    error responses decode to [decoded]; no success body decodes. *)
Definition fixedServer (resp : Response) (decoded : option APIError)
    (done : Z -> option CtxErr) : Env :=
  mkEnv (fun _ => inr sampleJSON)
        (fun _ _ => inl (errorString "unexpected end of JSON input"))
        (fun _ => decoded)
        (fun _ _ _ => inr resp)
        done.

Definition neverDone : Z -> option CtxErr := fun _ => None.

(** Cancelled during the sleep before attempt 1. *)
Definition cancelledAtFirstRetry : Z -> option CtxErr :=
  fun k => if k =? 1 then Some Canceled else None.

Definition always404 : Env :=
  fixedServer (mkResponse 404 sampleJSON) (Some notFound) neverDone.

Definition always429 : Env :=
  fixedServer (mkResponse 429 sampleJSON) (Some tooManyRequests) neverDone.

Definition always500ThenCancelled : Env :=
  fixedServer (mkResponse 500 sampleJSON) (Some internalError) cancelledAtFirstRetry.

(** 200 with a body that is not the JSON the sink expects. *)
Definition garbledSuccess : Env :=
  fixedServer (mkResponse 200 ["<"%byte]) None neverDone.

(** 502 with a body that is not [APIError] JSON. *)
Definition garbledFailure : Env :=
  fixedServer (mkResponse 502 ["<"%byte]) None neverDone.

(** 500 for the attempts before [n], then 200 with an empty body. *)
Definition flakyServer (n : Z) : Env :=
  mkEnv (fun _ => inr sampleJSON)
        (fun _ _ => inl (errorString "unexpected end of JSON input"))
        (fun _ => Some internalError)
        (fun k _ _ => inr (if k <? n then mkResponse 500 sampleJSON else mkResponse 200 []))
        neverDone.

Definition tokenClient : Client := NewClient (Some (BearerTokenAuth "test-token")) None.
Definition emptyTokenClient : Client := NewClient (Some (BearerTokenAuth "")) None.
Definition anonymousClient : Client := NewClient None None.
Definition contextClient : Client := NewClient (Some (ContextTokenAuth None)) None.

Definition sampleCheck : PermissionCheckRequest.t :=
  PermissionCheckRequest.mk "user" "hanul" "viewer" "document" "doc1".

(** ** Package request (request/request.go, request/errors.go) *)

Module request.

(** The sentinel errors of errors.go. *)
Definition ObjectNameSpaceRequired : GoError := errorString "objectNamespace is required".
Definition ObjectIdRequired : GoError := errorString "objectId is required".
Definition RelationRequired : GoError := errorString "relation is required".
Definition SubjectIdRequired : GoError := errorString "subjectId is required".
Definition SubjectTypeRequired : GoError := errorString "subjectType is required".

Definition sentinels : list GoError :=
  [ObjectNameSpaceRequired; ObjectIdRequired; RelationRequired;
   SubjectIdRequired; SubjectTypeRequired].

Module PermissionCheckRequest.
Record t : Type := mk {
  SubjectType : string;
  SubjectID : string;
  Relation : string;
  ObjectNamespace : string;
  ObjectID : string
}.

Definition Validate (r : t) : option GoError :=
  if (SubjectType r =? "")%string then Some SubjectTypeRequired
  else if (SubjectID r =? "")%string then Some SubjectIdRequired
  else if (Relation r =? "")%string then Some RelationRequired
  else if (ObjectNamespace r =? "")%string then Some ObjectNameSpaceRequired
  else if (ObjectID r =? "")%string then Some ObjectIdRequired
  else None.
End PermissionCheckRequest.

Module PermissionWriteRequest.
Record t : Type := mk {
  ObjectNamespace : string;
  ObjectID : string;
  Relation : string;
  SubjectType : string;
  SubjectID : string;
  SubjectRelation : option string
}.

Definition Validate (r : t) : option GoError :=
  if (ObjectNamespace r =? "")%string then Some ObjectNameSpaceRequired
  else if (ObjectID r =? "")%string then Some ObjectIdRequired
  else if (Relation r =? "")%string then Some RelationRequired
  else if (SubjectType r =? "")%string then Some SubjectTypeRequired
  else if (SubjectID r =? "")%string then Some SubjectIdRequired
  else None.
End PermissionWriteRequest.

Module PermissionDeleteRequest.
Record t : Type := mk {
  ObjectNamespace : string;
  ObjectID : string;
  Relation : string;
  SubjectType : string;
  SubjectID : string
}.

Definition Validate (r : t) : option GoError :=
  if (ObjectNamespace r =? "")%string then Some ObjectNameSpaceRequired
  else if (ObjectID r =? "")%string then Some ObjectIdRequired
  else if (Relation r =? "")%string then Some RelationRequired
  else if (SubjectType r =? "")%string then Some SubjectTypeRequired
  else if (SubjectID r =? "")%string then Some SubjectIdRequired
  else None.
End PermissionDeleteRequest.

Module PermissionReadRequest.
Record t : Type := mk {
  ObjectNamespace : string;
  ObjectID : string
}.

Definition Validate (r : t) : option GoError :=
  if (ObjectNamespace r =? "")%string then Some ObjectNameSpaceRequired
  else if (ObjectID r =? "")%string then Some ObjectIdRequired
  else None.
End PermissionReadRequest.

Module PermissionExpendRequest.
Record t : Type := mk {
  ObjectNamespace : string;
  ObjectID : string;
  Relation : string
}.

Definition Validate (r : t) : option GoError :=
  if (ObjectNamespace r =? "")%string then Some ObjectNameSpaceRequired
  else if (ObjectID r =? "")%string then Some ObjectIdRequired
  else if (Relation r =? "")%string then Some RelationRequired
  else None.
End PermissionExpendRequest.

Module ListObjectsRequest.
Record t : Type := mk {
  ObjectNamespace : string;
  Relation : string;
  SubjectType : string;
  SubjectID : string
}.

Definition Validate (r : t) : option GoError :=
  if (SubjectType r =? "")%string then Some SubjectTypeRequired
  else if (SubjectID r =? "")%string then Some SubjectIdRequired
  else if (Relation r =? "")%string then Some RelationRequired
  else if (ObjectNamespace r =? "")%string then Some ObjectNameSpaceRequired
  else None.
End ListObjectsRequest.

End request.

(** ** The net/http client (package client, src/unnamed/part_000) *)

Module client.

(** [BearerTokenAuth], the one [Authenticator] of this package. *)
Record BearerTokenAuth : Type := mkBearerTokenAuth {
  Token : string
}.

(** [Authenticate]. *)
Definition Authenticate (b : BearerTokenAuth) (req : Request) : GoError + Request :=
  if (Token b =? "")%string then inl (errorString "bearer token is empty")
  else inr (SetAuthorization req ("Bearer " ++ Token b)).

Record ClientOptions : Type := mkClientOptions {
  Timeout : Duration;
  MaxRetries : Z;
  RetryDelay : Duration;
  logger : option Logger
}.

Record Client : Type := mkClient {
  auth : option BearerTokenAuth;
  options : ClientOptions
}.

(** [NewClient]. *)
Definition NewClient (a : option BearerTokenAuth) (opts : option ClientOptions) : Client :=
  let opts :=
    match opts with
    | None => mkClientOptions defaultTimeout defaultMaxRetries defaultRetryDelay None
    | Some o => o
    end in
  mkClient a
    (mkClientOptions
       (orDefault (Timeout opts) defaultTimeout)
       (orDefault (MaxRetries opts) defaultMaxRetries)
       (orDefault (RetryDelay opts) defaultRetryDelay)
       (logger opts)).

(** What [doRequest] is given as [body interface{}]. *)
Inductive Payload : Type :=
| CheckPayload (r : request.PermissionCheckRequest.t)
| WritePayload (r : request.PermissionWriteRequest.t)
| DeletePayload (r : request.PermissionDeleteRequest.t).

(** What [httpClient.Do] returns: the status and what reading the body
    gives. *)
Record Response : Type := mkResponse {
  StatusCode : Z;
  ReadAll : GoError + Bytes
}.

(** The collaborators of one logical call.  [json_Marshal] is called
    before the loop (as call 0) and again before every retry, and may
    answer differently each time; [NewRequestWithContext] refuses some
    methods and URLs. *)
Record Env : Type := mkEnv {
  json_Marshal : Z -> Payload -> GoError + Bytes;
  json_Unmarshal : Sink -> Bytes -> GoError + Value;
  json_Unmarshal_APIError : Bytes -> option APIError;
  NewRequestWithContext : string -> string -> option GoError;
  Do : Z -> Request -> GoError + Response;
  ctx_Done : Z -> option CtxErr
}.

Inductive Event : Type :=
| EvMarshal (attempt : Z) (body : Payload)
| EvTimer (attempt : Z) (backoffDelay : Duration)
| EvLog (level : LogLevel) (msg : string)
| EvNewRequest (attempt : Z)
| EvAuthenticate (attempt : Z)
| EvDo (attempt : Z) (req : Request).

Record Outcome : Type := mkOutcome {
  trace : list Event;
  err : option GoError;
  value : option Value
}.

Definition before (evs : list Event) (o : Outcome) : Outcome :=
  mkOutcome (evs ++ trace o)%list (err o) (value o).

Definition log (c : Client) (level : LogLevel) (msg : string) : list Event :=
  match logger (options c) with
  | Some _ => [EvLog level msg]
  | None => []
  end.

(** [return <error>] out of [doRequest]. *)
Definition stop (evs : list Event) (e : GoError) : Outcome :=
  mkOutcome evs (Some e) None.

Section Executor.
Variable env : Env.

(** The attempt loop: [n] iterations from [attempt] on, with the reader
    over the body bytes and the error recorded so far. *)
Fixpoint retryLoop (c : Client) (url method : string) (body : option Payload)
    (result : option Sink) (n : nat) (attempt : Z) (reqBody : Bytes)
    (lastErr : option GoError) : Outcome :=
  match n with
  | O => stop [] (wrapError "max retries exceeded" lastErr)
  | S n' =>
      let next := retryLoop c url method body result n' (attempt + 1) in
      let go (reqBody : Bytes) : Outcome :=
        match NewRequestWithContext env method url with
        | Some e => stop [EvNewRequest attempt] (wrapError "failed to create request" (Some e))
        | None =>
            let req := mkRequest url method reqBody None None in
            let req := match body with
                       | Some _ => SetContentType req "application/json"
                       | None => req
                       end in
            let stamped :=
              match auth c with
              | None => ([], inr req)
              | Some a => ([EvAuthenticate attempt], Authenticate a req)
              end in
            match stamped with
            | (evs, inl e) =>
                stop (EvNewRequest attempt :: evs)
                  (wrapError "authentication failed" (Some e))
            | (evs, inr req) =>
                before (EvNewRequest attempt :: evs ++ [EvDo attempt req])
                  match Do env attempt req with
                  | inl e =>
                      before (log c LogError "request error")
                        (next reqBody (Some (wrapError "request failed" (Some e))))
                  | inr resp =>
                      match ReadAll resp with
                      | inl e =>
                          next reqBody
                            (Some (wrapError "failed to read response body" (Some e)))
                      | inr bodyBytes =>
                          if (200 <=? StatusCode resp) && (StatusCode resp <? 300) then
                            match result, bodyBytes with
                            | Some sink, _ :: _ =>
                                match json_Unmarshal env sink bodyBytes with
                                | inl e =>
                                    stop [] (wrapError "failed to unmarshal response" (Some e))
                                | inr v => mkOutcome [] None (Some v)
                                end
                            | _, _ => mkOutcome [] None None
                            end
                          else
                            match json_Unmarshal_APIError env bodyBytes with
                            | None => stop [] (httpError (StatusCode resp) bodyBytes)
                            | Some apiErr =>
                                if isClientError (StatusCode resp) then
                                  stop (log c LogError "client error") (apiError apiErr)
                                else
                                  before (log c LogError "server error, will retry")
                                    (next reqBody (Some (apiError apiErr)))
                            end
                      end
                  end
            end
        end in
      if 0 <? attempt then
        let backoffDelay := Duration_mul (RetryDelay (options c)) attempt in
        match ctx_Done env attempt with
        | Some e => stop [EvTimer attempt backoffDelay] (ctxError e)
        | None =>
            before (EvTimer attempt backoffDelay :: log c LogDebug "retrying request")
              match body with
              | Some b =>
                  before [EvMarshal attempt b]
                    (go match json_Marshal env attempt b with
                        | inr jsonData => jsonData
                        | inl _ => []
                        end)
              | None => go reqBody
              end
        end
      else go reqBody
  end.

(** [doRequest]. *)
Definition doRequest (c : Client) (method path : string)
    (body : option Payload) (result : option Sink) : Outcome :=
  let loop := retryLoop c (baseURL ++ path) method body result
                (Z.to_nat (MaxRetries (options c) + 1)) 0 in
  match body with
  | None => loop [] None
  | Some b =>
      match json_Marshal env 0 b with
      | inl e => stop [EvMarshal 0 b] (wrapError "failed to marshal request body" (Some e))
      | inr jsonData => before [EvMarshal 0 b] (loop jsonData None)
      end
  end.

(** [if err != nil { return nil, err }; return &resp, nil]. *)
Definition orNil (zero : Value) (o : Outcome) : Outcome :=
  match err o with
  | Some e => mkOutcome (trace o) (Some e) None
  | None =>
      mkOutcome (trace o) None
        (Some match value o with
              | Some v => v
              | None => zero
              end)
  end.

Definition CheckPermission (c : Client)
    (req : option request.PermissionCheckRequest.t) : Outcome :=
  match req with
  | None => stop [] (errorString "permission check request is nil")
  | Some r =>
      match request.PermissionCheckRequest.Validate r with
      | Some e => stop [] (wrapError "invalid request" (Some e))
      | None =>
          orNil (CheckResponseValue (PermissionCheckResponse.mk false ""))
            (doRequest c "POST" "/api/anamericano/check" (Some (CheckPayload r))
               (Some IntoCheckResponse))
      end
  end.

Definition WritePermission (c : Client)
    (req : option request.PermissionWriteRequest.t) : Outcome :=
  match req with
  | None => stop [] (errorString "permission write request is nil")
  | Some r =>
      match request.PermissionWriteRequest.Validate r with
      | Some e => stop [] (wrapError "invalid request" (Some e))
      | None =>
          orNil (PermissionValue (Permission.mk 0 "" "" "" "" "" None ""))
            (doRequest c "POST" "/api/anamericano/write" (Some (WritePayload r))
               (Some IntoPermission))
      end
  end.

Definition DeletePermission (c : Client)
    (req : option request.PermissionDeleteRequest.t) : Outcome :=
  match req with
  | None => stop [] (errorString "permission delete request is nil")
  | Some r =>
      match request.PermissionDeleteRequest.Validate r with
      | Some e => stop [] (wrapError "invalid request" (Some e))
      | None => doRequest c "DELETE" "/api/anamericano/delete" (Some (DeletePayload r)) None
      end
  end.

Definition ReadPermissions (c : Client)
    (req : option request.PermissionReadRequest.t) : Outcome :=
  match req with
  | None => stop [] (errorString "permission read request is nil")
  | Some r =>
      match request.PermissionReadRequest.Validate r with
      | Some e => stop [] (wrapError "invalid request" (Some e))
      | None =>
          doRequest c "GET"
            ("/api/anamericano/read/" ++ request.PermissionReadRequest.ObjectNamespace r
             ++ "/" ++ request.PermissionReadRequest.ObjectID r)
            None (Some IntoPermissions)
      end
  end.

Definition ExpandPermissions (c : Client)
    (req : option request.PermissionExpendRequest.t) : Outcome :=
  match req with
  | None => stop [] (errorString "permission expend request is nil")
  | Some r =>
      match request.PermissionExpendRequest.Validate r with
      | Some e => stop [] (wrapError "invalid request" (Some e))
      | None =>
          doRequest c "GET"
            ("/api/anamericano/expand/" ++ request.PermissionExpendRequest.ObjectNamespace r
             ++ "/" ++ request.PermissionExpendRequest.ObjectID r
             ++ "/" ++ request.PermissionExpendRequest.Relation r)
            None (Some IntoStrings)
      end
  end.

Definition ListObjects (c : Client)
    (req : option request.ListObjectsRequest.t) : Outcome :=
  match req with
  | None => stop [] (errorString "permission list request is nil")
  | Some r =>
      match request.ListObjectsRequest.Validate r with
      | Some e => stop [] (wrapError "invalid request" (Some e))
      | None =>
          doRequest c "GET"
            ("/api/anamericano/list/" ++ request.ListObjectsRequest.SubjectType r
             ++ "/" ++ request.ListObjectsRequest.SubjectID r
             ++ "/" ++ request.ListObjectsRequest.Relation r
             ++ "/" ++ request.ListObjectsRequest.ObjectNamespace r)
            None (Some IntoStrings)
      end
  end.

End Executor.

(** Reading a trace of this client. *)
Definition isNewRequest (ev : Event) : bool :=
  match ev with EvNewRequest _ => true | _ => false end.

Definition isDo (ev : Event) : bool :=
  match ev with EvDo _ _ => true | _ => false end.

Definition isMarshal (ev : Event) : bool :=
  match ev with EvMarshal _ _ => true | _ => false end.

Definition attempts (tr : list Event) : Z := Z.of_nat (List.length (filter isNewRequest tr)).
Definition sends (tr : list Event) : Z := Z.of_nat (List.length (filter isDo tr)).
Definition marshals (tr : list Event) : Z := Z.of_nat (List.length (filter isMarshal tr)).

(** The request of attempt [attempt] before it is stamped. *)
Definition newRequest (url method : string) (body : option Payload) (reqBody : Bytes)
    : Request :=
  match body with
  | Some _ => SetContentType (mkRequest url method reqBody None None) "application/json"
  | None => mkRequest url method reqBody None None
  end.

(** The stamp of a request by the client's authenticator, if it has one. *)
Definition stamp (c : Client) (req : Request) : GoError + Request :=
  match auth c with
  | None => inr req
  | Some a => Authenticate a req
  end.

(** A server that gives the same response to every request. *)
Definition fixedServer (status : Z) (decoded : option APIError) : Env :=
  mkEnv (fun _ _ => inr sampleJSON)
        (fun _ _ => inl (errorString "unexpected end of JSON input"))
        (fun _ => decoded)
        (fun _ _ => None)
        (fun _ _ => inr (mkResponse status (inr sampleJSON)))
        (fun _ => None).

Definition sampleCheck : request.PermissionCheckRequest.t :=
  request.PermissionCheckRequest.mk "user" "hanul" "viewer" "document" "doc1".

(** The bytes [doRequest] enters the loop with. *)
Definition jsonOf (env : Env) (body : option Payload) : GoError + Bytes :=
  match body with
  | None => inr []
  | Some b => json_Marshal env 0 b
  end.

Definition marshalEvents (body : option Payload) : list Event :=
  match body with
  | None => []
  | Some b => [EvMarshal 0 b]
  end.

(** The bytes a retry sends: what [json.Marshal] returns when called
    again before attempt [k], nothing if it fails, and nothing without a
    body. *)
Definition remarshalled (env : Env) (body : option Payload) (k : Z) : Bytes :=
  match body with
  | None => []
  | Some b =>
      match json_Marshal env k b with
      | inr jsonData => jsonData
      | inl _ => []
      end
  end.

(** A request that failed validation: no call was made, and the error is
    "invalid request" around one of the sentinels of package request. *)
Definition rejected (o : Outcome) : Prop :=
  trace o = [] /\
  exists s, In s request.sentinels /\ err o = Some (wrapError "invalid request" (Some s)).

End client.

(** ** Further readings of a trace and of an error *)

(** The attempt numbers of a trace, in the order the attempts were made. *)
Definition acquired (tr : list Event) : list Z :=
  flat_map (fun ev => match ev with EvAcquire k => [k] | _ => [] end) tr.

(** [a; a+1; ...; a+m-1]. *)
Definition countFrom (a : Z) (m : nat) : list Z :=
  map (fun i => a + Z.of_nat i) (seq 0 m).

(** The errors [doRequest] hands back to its caller, by shape: a bare
    [*APIError] whose own status is a client error other than 429, the
    context's error, or one of the two wrappers built outside the
    per-attempt function. *)
Definition returnable (e : GoError) : Prop :=
  match e with
  | apiError a => isClientError (Status a) = true
  | ctxError _ => True
  | wrapError msg _ =>
      msg = "max retries exceeded" \/ msg = "failed to marshal request body"
  | errorString _ => False
  | httpError _ _ => False
  end.

(** Options with every field left at its zero value. *)
Definition zeroOptions : ClientOptions := mkClientOptions 0 0 0 None 0 0.

(** A transport that cannot reach the server. *)
Definition unreachable : Env :=
  mkEnv (fun _ => inr sampleJSON)
        (fun _ _ => inl (errorString "unexpected end of JSON input"))
        (fun _ => None)
        (fun _ _ _ => inl (errorString "dial tcp: connection refused"))
        neverDone.

(** A provider that hands out the token with the attempt number it is
    asked at. *)
Definition rotatingProvider : TokenProvider :=
  mkTokenProvider (fun k _ => inr (if k =? 0 then "first" else "later")).

Definition dynamicClient : Client :=
  NewClient (Some (DynamicTokenAuth rotatingProvider None)) None.

(** The error the transport gives to attempt [k], if the stamp of that
    attempt succeeds and the transport fails. *)
Definition transportErrorAt (env : Env) (c : Client) (url method : string)
    (jsonData : Bytes) (k : Z) : option GoError :=
  match stamp (auth c) k (newRequest url method jsonData) with
  | inl _ => None
  | inr req =>
      match DoTimeout env k req (Timeout (options c)) with
      | inl e => Some e
      | inr _ => None
      end
  end.

(** How the loop ends an iteration whose attempt returned [r]: with the
    value of a success, or with a bare [APIError] of a final status. *)
Definition stopsWith (r : GoError + option Value) (er : option GoError)
    (v : option Value) : Prop :=
  (r = inr v /\ er = None) \/
  (exists x, r = inl (apiError x) /\ isClientError (Status x) = true /\
             er = Some (apiError x) /\ v = None).

(** The errors of an attempt after which the loop goes round again. *)
Definition retried (e : GoError) : Prop :=
  match e with
  | apiError x => isClientError (Status x) = false
  | _ => True
  end.

(** ** Facts about one attempt *)

Lemma log_isLog c level msg : Forall (fun ev => isLog ev = true) (log c level msg).
Proof.
  unfold log. destruct (logger (options c)); repeat constructor.
Qed.

Lemma stamp_preserves a k req req' :
  stamp a k req = inr req' ->
  RequestURI req' = RequestURI req /\ Method req' = Method req /\
  Body req' = Body req /\ ContentType req' = ContentType req.
Proof.
  unfold stamp, AuthenticateFastHTTP, BearerTokenAuth_AuthenticateFastHTTP,
    OAuthTokenAuth_AuthenticateFastHTTP, DynamicTokenAuth_AuthenticateFastHTTP,
    ContextTokenAuth_AuthenticateFastHTTP.
  intros H.
  destruct a as [[t | t | p dc | cc] | ].
  - destruct (t =? "")%string; inversion H; subst; auto.
  - destruct (t =? "")%string; inversion H; subst; auto.
  - destruct (GetToken p k _) as [e | tok]; [discriminate |].
    destruct (tok =? "")%string; inversion H; subst; auto.
  - destruct cc as [cx | ]; [| discriminate].
    destruct (ctxToken cx) as [tok | ]; [| discriminate].
    destruct (tok =? "")%string; inversion H; subst; auto.
  - inversion H; subst; auto.
Qed.

Lemma newRequest_fields url method jsonData :
  RequestURI (newRequest url method jsonData) = url /\
  Method (newRequest url method jsonData) = method /\
  Body (newRequest url method jsonData) = jsonData.
Proof.
  unfold newRequest. destruct jsonData; simpl; auto.
Qed.

(** ** Lists *)

(** An element found in [l1 ++ l2] lies in [l2] when [l1] has none of its
    kind. *)
Lemma split_skip {A : Type} (P : A -> bool) (l1 l2 pre post : list A) (x : A) :
  P x = true ->
  Forall (fun y => P y = false) l1 ->
  (l1 ++ l2 = pre ++ x :: post)%list ->
  exists pre2, pre = (l1 ++ pre2)%list /\ l2 = (pre2 ++ x :: post)%list.
Proof.
  intros Hx Hl1. revert pre.
  induction Hl1 as [| y l1 Hy Hl1 IH]; intros pre Heq.
  - exists pre. auto.
  - destruct pre as [| z pre]; simpl in Heq.
    + injection Heq as -> _. congruence.
    + injection Heq as -> Heq.
      destruct (IH pre Heq) as (pre2 & -> & ->).
      exists pre2. auto.
Qed.

Lemma filter_none {A : Type} (P : A -> bool) (l : list A) :
  Forall (fun y => P y = false) l -> filter P l = [].
Proof.
  induction 1 as [| y l Hy _ IH]; simpl; [reflexivity |].
  now rewrite Hy.
Qed.

Lemma attempts_app l1 l2 : attempts (l1 ++ l2) = attempts l1 + attempts l2.
Proof.
  unfold attempts. rewrite filter_app, length_app. lia.
Qed.

Lemma sends_app l1 l2 : sends (l1 ++ l2) = sends l1 + sends l2.
Proof.
  unfold sends. rewrite filter_app, length_app. lia.
Qed.

Lemma attempts_none l :
  Forall (fun ev => isAcquire ev = false) l -> attempts l = 0.
Proof.
  intros H. unfold attempts. now rewrite (filter_none _ _ H).
Qed.

Lemma sends_none l :
  Forall (fun ev => isDoTimeout ev = false) l -> sends l = 0.
Proof.
  intros H. unfold sends. now rewrite (filter_none _ _ H).
Qed.



Lemma stampsAt_app k l1 l2 : stampsAt k (l1 ++ l2) = stampsAt k l1 + stampsAt k l2.
Proof.
  unfold stampsAt. rewrite filter_app, length_app. lia.
Qed.

Lemma stampsAt_none k l :
  Forall (fun ev => isAuthenticateAt k ev = false) l -> stampsAt k l = 0.
Proof.
  intros H. unfold stampsAt. now rewrite (filter_none _ _ H).
Qed.

Lemma not_in_kind {A : Type} (P : A -> bool) (l : list A) (x : A) :
  Forall (fun y => P y = false) l -> P x = true -> ~ In x l.
Proof.
  intros H Hx Hin. rewrite Forall_forall in H. specialize (H x Hin). congruence.
Qed.

(** Closes a goal that asks for the log lines and the result of an attempt
    once the attempt has been evaluated. *)
Ltac after_send :=
  eexists _, _; split; [reflexivity | first [constructor | apply log_isLog]].

Section ExecutorFacts.
Variable env : Env.
Variable c : Client.
Variables url method : string.
Variable jsonData : Bytes.
Variable result : option Sink.

Let T := Timeout (options c).
Let req0 := newRequest url method jsonData.
Let delay (k : Z) : Duration := Duration_mul (RetryDelay (options c)) k.
Let loop := retryLoop env c url method jsonData result.

(** An attempt whose stamp fails stops there. *)
Lemma attemptOnce_auth_failure k e :
  stamp (auth c) k req0 = inl e ->
  attemptOnce env c url method jsonData result k =
    (EvAcquire k :: stampEvents (auth c) k,
     inl (wrapError "authentication failed" (Some e))).
Proof.
  unfold attemptOnce, stamp, stampEvents, req0. intros H.
  destruct (auth c) as [a | ]; [| discriminate].
  simpl. rewrite H. reflexivity.
Qed.

(** An attempt whose stamp succeeds sends the stamped request. *)
Lemma attemptOnce_sent k req :
  stamp (auth c) k req0 = inr req ->
  exists logs r,
    attemptOnce env c url method jsonData result k =
      (EvAcquire k :: stampEvents (auth c) k ++ EvDoTimeout k req T :: logs, r)%list
    /\ Forall (fun ev => isLog ev = true) logs.
Proof.
  unfold attemptOnce, stamp, stampEvents, req0, T. intros H.
  destruct (auth c) as [a | ]; simpl;
    [rewrite H | injection H as <-]; simpl;
    (destruct (DoTimeout env k _ _) as [e | resp]; simpl;
     [ after_send
     | destruct ((200 <=? StatusCode resp) && (StatusCode resp <? 300));
       [ destruct result as [s | ];
         [ destruct (RespBody resp) as [| b bs];
           [ | destruct (json_Unmarshal env s (b :: bs)) ] | ]
       | destruct (json_Unmarshal_APIError env (RespBody resp));
         [ destruct (isClientError (StatusCode resp)) | ] ];
       simpl; after_send ]).
Qed.

Lemma log_afterStamp k level msg :
  Forall (afterStamp c url method jsonData k) (log c level msg).
Proof.
  unfold log. destruct (logger (options c)); repeat constructor.
Qed.

Lemma attemptOnce_shape k :
  exists rest r,
    attemptOnce env c url method jsonData result k =
      (EvAcquire k :: stampEvents (auth c) k ++ rest, r)%list
    /\ Forall (afterStamp c url method jsonData k) rest.
Proof.
  destruct (stamp (auth c) k req0) as [e | req] eqn:Hs.
  - exists [], (inl (wrapError "authentication failed" (Some e))).
    rewrite app_nil_r. split; [now apply attemptOnce_auth_failure | constructor].
  - destruct (attemptOnce_sent k req Hs) as (logs & r & Heq & Hlogs).
    exists (EvDoTimeout k req T :: logs), r. split; [exact Heq |].
    constructor; [simpl; auto |].
    eapply Forall_impl; [| exact Hlogs].
    intros [ | | | | | ] Hev; simpl in *; try discriminate; exact I.
Qed.

(** What the loop makes of the outcome of attempt [a]: it returns with
    the attempt's events, or goes round again after them. *)
Lemma retryLoop_after_attempt n a :
  exists rest, Forall (afterStamp c url method jsonData a) rest /\
    let evs := (EvAcquire a :: stampEvents (auth c) a ++ rest)%list in
    let o :=
      match attemptOnce env c url method jsonData result a with
      | (evs0, inr v0) => mkOutcome evs0 None v0
      | (evs0, inl (apiError apiErr)) =>
          if isClientError (Status apiErr)
          then mkOutcome evs0 (Some (apiError apiErr)) None
          else before evs0 (loop n (a + 1) (Some (apiError apiErr)))
      | (evs0, inl e0) =>
          before (evs0 ++ log c LogError "request error")%list
            (loop n (a + 1) (Some e0))
      end in
    (exists er v, o = mkOutcome evs er v)
    \/ (exists e, o = before evs (loop n (a + 1) (Some e))).
Proof.
  destruct (attemptOnce_shape a) as (rest & r & Heq & Hrest).
  rewrite Heq.
  assert (Hq : Forall (afterStamp c url method jsonData a)
                 (rest ++ log c LogError "request error")%list)
    by (apply Forall_app; split; [exact Hrest | apply log_afterStamp]).
  destruct r as [e | v].
  - destruct e as [s0 | m cause | sc bd | ae | ce];
      try (exists (rest ++ log c LogError "request error")%list;
           split; [exact Hq |]; right; eexists;
           rewrite app_comm_cons, !app_assoc; reflexivity).
    destruct (isClientError (Status ae)).
    + exists rest. split; [exact Hrest |]. left. eauto.
    + exists rest. split; [exact Hrest |]. right. eauto.
  - exists rest. split; [exact Hrest |]. left. eauto.
Qed.

(** One iteration of the loop: it is cancelled in its sleep, or it makes
    an attempt and then either returns or goes round again. *)
Lemma retryLoop_step n a lastErr :
  (exists e, 0 < a /\ ctx_Done env a = Some e /\
     loop (S n) a lastErr = mkOutcome [EvTimer a (delay a)] (Some (ctxError e)) None)
  \/
  ((0 < a -> ctx_Done env a = None) /\
   exists rest tl, Forall (afterStamp c url method jsonData a) rest /\
     trace (loop (S n) a lastErr) =
       (backoffEvents c a ++ (EvAcquire a :: stampEvents (auth c) a ++ rest) ++ tl)%list /\
     (tl = [] \/
      exists e, tl = trace (loop n (a + 1) (Some e)) /\
                err (loop (S n) a lastErr) = err (loop n (a + 1) (Some e)))).
Proof.
  destruct (retryLoop_after_attempt n a) as (rest & Hq & Hgo).
  unfold loop, delay, backoffEvents in *. simpl in *.
  destruct (0 <? a) eqn:Hpos.
  - apply Z.ltb_lt in Hpos.
    destruct (ctx_Done env a) as [e | ] eqn:Hdone.
    + left. exists e. auto.
    + right. split; [auto |].
      destruct Hgo as [(er & v & H1) | (e & H1)]; rewrite H1; simpl.
      * exists rest, []. split; [exact Hq |]. split; [| now left].
        repeat (rewrite <- ?app_assoc, ?app_nil_r; simpl). reflexivity.
      * exists rest, (trace (retryLoop env c url method jsonData result n (a + 1) (Some e))).
        split; [exact Hq |]. split; [| right; exists e; auto].
        repeat (rewrite <- ?app_assoc; simpl). reflexivity.
  - apply Z.ltb_ge in Hpos. right. split; [intros; lia |].
    destruct Hgo as [(er & v & H1) | (e & H1)]; rewrite H1; simpl.
    + exists rest, []. split; [exact Hq |]. split; [| now left].
      repeat (rewrite <- ?app_assoc, ?app_nil_r; simpl). reflexivity.
    + exists rest, (trace (retryLoop env c url method jsonData result n (a + 1) (Some e))).
      split; [exact Hq |]. split; [| right; exists e; auto].
      repeat (rewrite <- ?app_assoc; simpl). reflexivity.
Qed.

Lemma afterStamp_loopEvent k lo hi ev :
  lo <= k < hi ->
  afterStamp c url method jsonData k ev ->
  loopEvent c url method jsonData lo hi ev.
Proof.
  intros Hk. destruct ev as [ | | | | | j req t]; simpl; try tauto.
  intros (-> & -> & Hs).
  apply stamp_preserves in Hs. destruct Hs as (Hu & Hm & Hb & _).
  destruct (newRequest_fields url method jsonData) as (Hu0 & Hm0 & Hb0).
  repeat split; try lia; congruence.
Qed.

Lemma loopEvent_weaken lo lo' hi ev :
  lo <= lo' ->
  loopEvent c url method jsonData lo' hi ev ->
  loopEvent c url method jsonData lo hi ev.
Proof.
  intros Hlo. destruct ev; simpl; intuition lia.
Qed.

(** Every event of the loop is one of the attempts it was asked to run,
    and every request it sends is the one [doRequest] prepared. *)
Lemma retryLoop_events n : forall a lastErr,
  Forall (loopEvent c url method jsonData a (a + Z.of_nat n))
         (trace (loop n a lastErr)).
Proof.
  induction n as [| n IH]; intros a lastErr.
  - constructor.
  - assert (Ha : a <= a < a + Z.of_nat (S n)) by lia.
    destruct (retryLoop_step n a lastErr)
      as [(e & Hpos & _ & Heq) | (_ & rest & tl & Hrest & Htr & Htl)].
    + rewrite Heq. simpl. constructor; [| constructor].
      simpl. unfold delay. auto.
    + rewrite Htr. apply Forall_app; split; [| apply Forall_app; split].
      * unfold backoffEvents. destruct (0 <? a) eqn:Hpos; [| constructor].
        apply Z.ltb_lt in Hpos. constructor; [simpl; auto |].
        unfold log. destruct (logger (options c)); repeat constructor.
      * constructor; [exact Ha |]. apply Forall_app; split.
        -- unfold stampEvents.
           destruct (auth c) as [a0 | ] eqn:Hauth; [| constructor].
           constructor; [simpl; split; [exact Ha | exact Hauth] | constructor].
        -- eapply Forall_impl; [| exact Hrest].
           intros ev. now apply afterStamp_loopEvent.
      * destruct Htl as [-> | (e & -> & _)]; [constructor |].
        eapply Forall_impl; [| apply (IH (a + 1) (Some e))].
        intros ev Hev. apply (loopEvent_weaken a (a + 1)); [lia |].
        replace (a + Z.of_nat (S n)) with (a + 1 + Z.of_nat n) by lia.
        exact Hev.
Qed.

(** An attempt answered by a non-2xx response with a decodable error body
    ends with the decoded [APIError]. *)
Lemma attemptOnce_error_response k resp e :
  responseAt env c url method jsonData k = Some resp ->
  (200 <=? StatusCode resp) && (StatusCode resp <? 300) = false ->
  json_Unmarshal_APIError env (RespBody resp) = Some e ->
  exists req logs,
    attemptOnce env c url method jsonData result k =
      (EvAcquire k :: stampEvents (auth c) k ++ EvDoTimeout k req T :: logs,
       inl (apiError e))%list
    /\ Forall (fun ev => isLog ev = true) logs.
Proof.
  unfold responseAt, attemptOnce, stamp, stampEvents, T.
  intros Hresp H2xx Hdec.
  destruct (auth c) as [a | ]; simpl in *.
  - destruct (AuthenticateFastHTTP a k _) as [e0 | req]; [discriminate |].
    simpl. destruct (DoTimeout env k req _) as [e0 | resp0]; [discriminate |].
    injection Hresp as ->. simpl. rewrite H2xx, Hdec.
    destruct (isClientError (StatusCode resp)); simpl;
      eexists _, _; (split; [reflexivity | apply log_isLog]).
  - destruct (DoTimeout env k _ _) as [e0 | resp0]; [discriminate |].
    injection Hresp as ->. simpl. rewrite H2xx, Hdec.
    destruct (isClientError (StatusCode resp)); simpl;
      eexists _, _; (split; [reflexivity | apply log_isLog]).
Qed.

Lemma backoffEvents_counts a :
  filter isAcquire (backoffEvents c a) = [] /\
  filter isDoTimeout (backoffEvents c a) = [] /\
  (forall k, filter (isAuthenticateAt k) (backoffEvents c a) = []).
Proof.
  unfold backoffEvents, log.
  destruct (0 <? a); destruct (logger (options c)); simpl; auto.
Qed.

Lemma stampEvents_counts k :
  filter isAcquire (stampEvents (auth c) k) = [] /\
  filter isDoTimeout (stampEvents (auth c) k) = [] /\
  filter isTimer (stampEvents (auth c) k) = [].
Proof.
  unfold stampEvents. destruct (auth c); simpl; auto.
Qed.

Lemma logs_counts logs :
  Forall (fun ev => isLog ev = true) logs ->
  filter isAcquire logs = [] /\ filter isDoTimeout logs = [].
Proof.
  intros H. split; apply filter_none; (eapply Forall_impl; [| exact H]);
    intros [ | | | | | ]; simpl; congruence.
Qed.

(** The events of an attempt that reaches the transport count as one
    attempt and one send. *)
Lemma sent_attempt_counts a req logs :
  Forall (fun ev => isLog ev = true) logs ->
  let evs := (backoffEvents c a
              ++ EvAcquire a :: stampEvents (auth c) a ++ EvDoTimeout a req T :: logs)%list in
  attempts evs = 1 /\ sends evs = 1.
Proof.
  intros Hlogs evs. subst evs.
  destruct (backoffEvents_counts a) as (Hb1 & Hb2 & _).
  destruct (stampEvents_counts a) as (Hs1 & Hs2 & _).
  destruct (logs_counts logs Hlogs) as (Hl1 & Hl2).
  unfold attempts, sends. rewrite !filter_app. simpl. rewrite !filter_app. simpl.
  rewrite Hb1, Hb2, Hs1, Hs2, Hl1, Hl2. simpl. auto.
Qed.


(** An attempt answered by an error whose decoded status is a client
    error other than 429 is the last one. *)
Lemma retryLoop_client_error n lastErr resp e :
  responseAt env c url method jsonData 0 = Some resp ->
  (200 <=? StatusCode resp) && (StatusCode resp <? 300) = false ->
  json_Unmarshal_APIError env (RespBody resp) = Some e ->
  isClientError (Status e) = true ->
  attempts (trace (loop (S n) 0 lastErr)) = 1 /\
  sends (trace (loop (S n) 0 lastErr)) = 1 /\
  err (loop (S n) 0 lastErr) = Some (apiError e).
Proof.
  intros Hresp H2xx Hdec Hce.
  destruct (attemptOnce_error_response 0 resp e Hresp H2xx Hdec)
    as (req & logs & Heq & Hlogs).
  destruct (sent_attempt_counts 0 req logs Hlogs) as (Hc1 & Hc2).
  unfold loop. simpl. rewrite Heq, Hce. simpl. auto.
Qed.

Lemma afterStamp_kinds k rest :
  Forall (afterStamp c url method jsonData k) rest ->
  Forall (fun ev => isAcquire ev = false) rest /\
  Forall (fun ev => isTimer ev = false) rest /\
  (forall j, Forall (fun ev => isAuthenticateAt j ev = false) rest).
Proof.
  intros H. repeat split; try intros j;
    (eapply Forall_impl; [| exact H]);
    intros [ | | | | | ]; simpl; tauto.
Qed.

Lemma backoffEvents_no_acquire a :
  Forall (fun ev => isAcquire ev = false) (backoffEvents c a).
Proof.
  unfold backoffEvents, log.
  destruct (0 <? a); destruct (logger (options c)); repeat constructor.
Qed.

Lemma stampEvents_kinds k :
  Forall (fun ev => isAcquire ev = false) (stampEvents (auth c) k) /\
  Forall (fun ev => isTimer ev = false) (stampEvents (auth c) k).
Proof.
  unfold stampEvents. destruct (auth c); repeat constructor.
Qed.

(** Every attempt after the first comes right after the sleep (and the
    debug line) that belongs to it. *)
Lemma retryLoop_sleeps n : forall a lastErr k pre post,
  0 < k ->
  trace (loop n a lastErr) = (pre ++ EvAcquire k :: post)%list ->
  exists pre', pre = (pre' ++ backoffEvents c k)%list.
Proof.
  induction n as [| n IH]; intros a lastErr k pre post Hk Hsplit.
  - destruct pre; discriminate.
  - destruct (retryLoop_step n a lastErr)
      as [(e & _ & _ & Heq) | (_ & rest & tl & Hrest & Htr & Htl)].
    + rewrite Heq in Hsplit. simpl in Hsplit.
      destruct pre as [| x [| y pre]]; discriminate.
    + rewrite Htr in Hsplit.
      destruct (afterStamp_kinds a rest Hrest) as (Hr1 & _ & _).
      destruct (stampEvents_kinds a) as (Hs1 & _).
      apply (split_skip isAcquire) in Hsplit;
        [| reflexivity | apply backoffEvents_no_acquire].
      destruct Hsplit as (pre2 & -> & Hsplit).
      destruct pre2 as [| x pre3]; simpl in Hsplit.
      * injection Hsplit as -> _. exists []. now rewrite app_nil_r.
      * injection Hsplit as <- Hsplit.
        apply (split_skip isAcquire) in Hsplit;
          [| reflexivity | apply Forall_app; split; assumption].
        destruct Hsplit as (pre4 & -> & Htail).
        destruct Htl as [-> | (e & -> & _)]; [destruct pre4; discriminate |].
        destruct (IH _ _ _ _ _ Hk Htail) as (pre' & ->).
        exists (backoffEvents c a
                ++ EvAcquire a :: (stampEvents (auth c) a ++ rest) ++ pre')%list.
        repeat (rewrite <- ?app_assoc; simpl). reflexivity.
Qed.

(** A sleep during which the context is done is the last thing the loop
    does, and the loop returns the context's error. *)
Lemma retryLoop_cancelled n : forall a lastErr k d pre post e,
  trace (loop n a lastErr) = (pre ++ EvTimer k d :: post)%list ->
  ctx_Done env k = Some e ->
  post = [] /\ err (loop n a lastErr) = Some (ctxError e).
Proof.
  induction n as [| n IH]; intros a lastErr k d pre post e Hsplit Hdone.
  - destruct pre; discriminate.
  - destruct (retryLoop_step n a lastErr)
      as [(e0 & _ & Hd0 & Heq) | (Hnot & rest & tl & Hrest & Htr & Htl)].
    + rewrite Heq in *. simpl in Hsplit.
      destruct pre as [| x [| y pre]]; try discriminate.
      injection Hsplit as <- _ <-. simpl. split; congruence.
    + rewrite Htr in Hsplit.
      destruct (afterStamp_kinds a rest Hrest) as (_ & Hr2 & _).
      destruct (stampEvents_kinds a) as (_ & Hs2).
      assert (Hin : exists pre2, tl = (pre2 ++ EvTimer k d :: post)%list).
      { unfold backoffEvents in Hsplit.
        assert (Hmid : Forall (fun ev => isTimer ev = false)
                         (EvAcquire a :: stampEvents (auth c) a ++ rest))
          by (constructor; [reflexivity | apply Forall_app; split; assumption]).
        remember (EvAcquire a :: stampEvents (auth c) a ++ rest)%list as mid.
        destruct (0 <? a) eqn:Hpos.
        - apply Z.ltb_lt in Hpos. simpl in Hsplit.
          destruct pre as [| x pre1]; simpl in Hsplit.
          + injection Hsplit as -> _. rewrite (Hnot Hpos) in Hdone. discriminate.
          + injection Hsplit as _ Hsplit. rewrite app_assoc in Hsplit.
            apply (split_skip isTimer) in Hsplit; [| reflexivity |].
            * destruct Hsplit as (pre2 & _ & ->). eauto.
            * apply Forall_app; split; [| exact Hmid].
              unfold log. destruct (logger (options c)); repeat constructor.
        - simpl in Hsplit.
          apply (split_skip isTimer) in Hsplit; [| reflexivity | exact Hmid].
          destruct Hsplit as (pre2 & _ & ->). eauto. }
      destruct Hin as (pre2 & Htail).
      destruct Htl as [-> | (e1 & -> & ->)]; [destruct pre2; discriminate |].
      eapply IH; eauto.
Qed.

(** With an authenticator on the client, each attempt the loop makes
    calls it exactly once. *)
Lemma retryLoop_one_stamp n : forall a lastErr k a0,
  auth c = Some a0 ->
  In (EvAcquire k) (trace (loop n a lastErr)) ->
  stampsAt k (trace (loop n a lastErr)) = 1.
Proof.
  induction n as [| n IH]; intros a lastErr k a0 Hauth Hin.
  - destruct Hin.
  - destruct (retryLoop_step n a lastErr)
      as [(e & _ & _ & Heq) | (_ & rest & tl & Hrest & Htr & Htl)].
    + rewrite Heq in Hin. simpl in Hin. destruct Hin as [Hin | []]. discriminate.
    + destruct (afterStamp_kinds a rest Hrest) as (Hr1 & _ & Hr3).
      destruct (backoffEvents_counts a) as (_ & _ & Hb3).
      assert (Htail : tl = [] \/ exists e, tl = trace (loop n (a + 1) (Some e)))
        by (destruct Htl as [-> | (e & -> & _)]; eauto).
      rewrite Htr in Hin |- *.
      rewrite !stampsAt_app.
      assert (H0 : stampsAt k (backoffEvents c a) = 0)
        by (unfold stampsAt; now rewrite Hb3).
      assert (H1 : stampsAt k (EvAcquire a :: stampEvents (auth c) a ++ rest)
                   = if a =? k then 1 else 0).
      { change (EvAcquire a :: stampEvents (auth c) a ++ rest)%list
          with ([EvAcquire a] ++ stampEvents (auth c) a ++ rest)%list.
        rewrite !stampsAt_app, (stampsAt_none k rest (Hr3 k)), Hauth.
        unfold stampsAt. simpl. destruct (a =? k); reflexivity. }
      rewrite H0, H1.
      apply in_app_or in Hin. destruct Hin as [Hin | Hin].
      { exfalso. revert Hin. apply (not_in_kind isAcquire); [| reflexivity].
        apply backoffEvents_no_acquire. }
      apply in_app_or in Hin. destruct Hin as [Hin | Hin].
      * assert (k = a) as ->.
        { destruct Hin as [Hin | Hin]; [congruence |]. exfalso. revert Hin.
          apply (not_in_kind isAcquire); [| reflexivity].
          apply Forall_app; split; [apply stampEvents_kinds | exact Hr1]. }
        rewrite Z.eqb_refl.
        destruct Htail as [-> | (e & ->)]; [reflexivity |].
        rewrite stampsAt_none; [reflexivity |].
        eapply Forall_impl; [| apply (retryLoop_events n (a + 1) (Some e))].
        intros [ | | | | j x | ]; simpl; auto.
        intros (Hj & _). apply Z.eqb_neq. lia.
      * destruct Htail as [-> | (e & ->)]; [destruct Hin |].
        pose proof (retryLoop_events n (a + 1) (Some e)) as Hev.
        rewrite Forall_forall in Hev. specialize (Hev _ Hin). simpl in Hev.
        assert (Hne : (a =? k) = false) by (apply Z.eqb_neq; lia).
        rewrite Hne, (IH _ _ _ _ Hauth Hin). reflexivity.
Qed.

(** Every call of the authenticator is a call of the one the client
    holds. *)
Lemma retryLoop_stamps_client n a lastErr k x :
  In (EvAuthenticate k x) (trace (loop n a lastErr)) -> auth c = Some x.
Proof.
  intros Hin. pose proof (retryLoop_events n a lastErr) as Hev.
  rewrite Forall_forall in Hev. specialize (Hev _ Hin). simpl in Hev. tauto.
Qed.

End ExecutorFacts.

(** ** [doRequest] as a whole *)

Lemma wrap64_small x : - 2 ^ 63 <= x < 2 ^ 63 -> wrap64 x = x.
Proof.
  unfold wrap64. change (2 ^ 64) with (2 * 2 ^ 63). intros H.
  rewrite Z.mod_small; lia.
Qed.

Lemma marshalEvents_kinds body :
  Forall (fun ev => isAcquire ev = false) (marshalEvents body) /\
  Forall (fun ev => isTimer ev = false) (marshalEvents body) /\
  Forall (fun ev => isDoTimeout ev = false) (marshalEvents body) /\
  (forall k, Forall (fun ev => isAuthenticateAt k ev = false) (marshalEvents body)).
Proof.
  destruct body; repeat split; repeat constructor.
Qed.

(** When the body serializes (or there is none), [doRequest] is the
    hand-over of the context, the call of [json.Marshal] and the loop. *)
Lemma doRequest_loop env c ctx method path body result jsonData :
  jsonOf env body = inr jsonData ->
  let o := retryLoop env (injected c ctx) (baseURL ++ path) method jsonData result
             (Z.to_nat (MaxRetries (options c) + 1)) 0 None in
  fst (doRequest env c ctx method path body result) = injected c ctx /\
  trace (snd (doRequest env c ctx method path body result))
    = (marshalEvents body ++ trace o)%list /\
  err (snd (doRequest env c ctx method path body result)) = err o /\
  value (snd (doRequest env c ctx method path body result)) = value o.
Proof.
  unfold doRequest, jsonOf, injected. intros H.
  destruct body as [b | ]; simpl.
  - rewrite H. simpl. auto.
  - injection H as <-. simpl. auto.
Qed.

(** When the body does not serialize, nothing else happens. *)
Lemma doRequest_marshal_error env c ctx method path b result e :
  json_Marshal env b = inl e ->
  snd (doRequest env c ctx method path (Some b) result)
    = mkOutcome [EvMarshal b]
        (Some (wrapError "failed to marshal request body" (Some e))) None.
Proof.
  unfold doRequest. intros H. rewrite H. reflexivity.
Qed.

(** ** The claims *)

(** C2.  A call whose first response is a non-2xx whose body decodes to an
    [APIError] with a status in [400,500) other than 429 makes exactly one
    attempt, sends exactly one request, and returns that [APIError] itself
    as its error. *)
Theorem client_error_is_terminal env c ctx method path body result jsonData resp e :
  0 <= MaxRetries (options c) ->
  jsonOf env body = inr jsonData ->
  responseAt env (injected c ctx) (baseURL ++ path) method jsonData 0 = Some resp ->
  ~ (200 <= StatusCode resp < 300) ->
  json_Unmarshal_APIError env (RespBody resp) = Some e ->
  400 <= Status e < 500 ->
  Status e <> 429 ->
  let o := snd (doRequest env c ctx method path body result) in
  attempts (trace o) = 1 /\ sends (trace o) = 1 /\ err o = Some (apiError e).
Proof.
  intros Hmax Hjson Hresp H2xx Hdec Hrange H429 o.
  destruct (doRequest_loop env c ctx method path body result jsonData Hjson)
    as (_ & Htr & Herr & _).
  fold o in Htr, Herr.
  assert (Hn : exists n, Z.to_nat (MaxRetries (options c) + 1) = S n)
    by (exists (Z.to_nat (MaxRetries (options c))); lia).
  destruct Hn as (n & Hn). rewrite Hn in Htr, Herr.
  assert (H2 : (200 <=? StatusCode resp) && (StatusCode resp <? 300) = false).
  { destruct (200 <=? StatusCode resp) eqn:E1; [| reflexivity].
    destruct (StatusCode resp <? 300) eqn:E2; [| reflexivity].
    apply Z.leb_le in E1. apply Z.ltb_lt in E2. lia. }
  assert (Hce : isClientError (Status e) = true).
  { unfold isClientError. apply andb_true_iff. split; [apply andb_true_iff; split |].
    - apply Z.leb_le. lia.
    - apply Z.ltb_lt. lia.
    - apply negb_true_iff. apply Z.eqb_neq. exact H429. }
  destruct (retryLoop_client_error env (injected c ctx) (baseURL ++ path) method
              jsonData result n None resp e Hresp H2 Hdec Hce) as (Ha & Hs & He).
  destruct (marshalEvents_kinds body) as (Hm1 & _ & Hm3 & _).
  rewrite Htr, Herr, attempts_app, sends_app, Ha, Hs, He.
  rewrite (attempts_none _ Hm1), (sends_none _ Hm3). auto.
Qed.

Lemma client_error_is_terminal_witness :
  let o := snd (doRequest always404 tokenClient Background "POST" "/api/anamericano/check"
                  (Some (CheckPayload sampleCheck)) (Some IntoCheckResponse)) in
  attempts (trace o) = 1 /\ sends (trace o) = 1 /\ err o = Some (apiError notFound).
Proof.
  apply (client_error_is_terminal always404 tokenClient Background "POST"
           "/api/anamericano/check" (Some (CheckPayload sampleCheck))
           (Some IntoCheckResponse) sampleJSON (mkResponse 404 sampleJSON) notFound).
  - vm_compute. discriminate.
  - reflexivity.
  - reflexivity.
  - simpl. lia.
  - reflexivity.
  - simpl. lia.
  - simpl. lia.
Defined.



(** C6.  Whenever the delays fit a [time.Duration]: every attempt k > 0 is
    made right after a sleep of RetryDelay * k (and the debug line of the
    retry), and a sleep during which the caller's context is done is the
    last event of the call, which then returns the context's own error. *)
Theorem backoff_and_cancellation env c ctx method path body result :
  (forall k, 0 < k <= MaxRetries (options c) ->
     - 2 ^ 63 <= RetryDelay (options c) * k < 2 ^ 63) ->
  let o := snd (doRequest env c ctx method path body result) in
  forall k, 0 < k ->
    (forall pre post,
       trace o = (pre ++ EvAcquire k :: post)%list ->
       exists pre',
         pre = (pre' ++ EvTimer k (RetryDelay (options c) * k)
                        :: log c LogDebug "retrying request")%list) /\
    (forall pre post d,
       trace o = (pre ++ EvTimer k d :: post)%list ->
       d = RetryDelay (options c) * k /\
       forall e, ctx_Done env k = Some e ->
                 post = [] /\ err o = Some (ctxError e)).
Proof.
  intros Hfit o k Hk.
  destruct (jsonOf env body) as [e0 | jsonData] eqn:Hjson.
  { destruct body as [b | ]; [| discriminate].
    subst o. rewrite (doRequest_marshal_error _ _ _ _ _ _ _ _ Hjson). simpl.
    split; intros pre post; [| intros d]; intros H;
      destruct pre as [| x [| y pre]]; discriminate. }
  destruct (doRequest_loop env c ctx method path body result jsonData Hjson)
    as (_ & Htr & Herr & _).
  fold o in Htr, Herr.
  destruct (marshalEvents_kinds body) as (Hm1 & Hm2 & _ & _).
  set (n := Z.to_nat (MaxRetries (options c) + 1)) in *.
  pose proof (retryLoop_events env (injected c ctx) (baseURL ++ path) method
                jsonData result n 0 None) as Hev.
  rewrite Forall_forall in Hev.
  assert (Hdelay : forall j, 0 < j < 0 + Z.of_nat n ->
            Duration_mul (RetryDelay (options c)) j = RetryDelay (options c) * j).
  { intros j Hj. unfold Duration_mul. apply wrap64_small. apply Hfit. lia. }
  split.
  - intros pre post Hsplit. rewrite Htr in Hsplit.
    apply (split_skip isAcquire) in Hsplit; [| reflexivity | exact Hm1].
    destruct Hsplit as (pre2 & -> & Hsplit).
    assert (Hin : In (EvAcquire k)
                    (trace (retryLoop env (injected c ctx) (baseURL ++ path) method
                              jsonData result n 0 None)))
      by (rewrite Hsplit; apply in_elt).
    specialize (Hev _ Hin). simpl in Hev.
    apply retryLoop_sleeps in Hsplit; [| exact Hk].
    destruct Hsplit as (pre' & ->).
    exists (marshalEvents body ++ pre')%list.
    unfold backoffEvents. apply Z.ltb_lt in Hk as Hkb. rewrite Hkb.
    apply Z.ltb_lt in Hkb.
    rewrite <- app_assoc. rewrite Hdelay by lia. reflexivity.
  - intros pre post d Hsplit. rewrite Htr in Hsplit.
    apply (split_skip isTimer) in Hsplit; [| reflexivity | exact Hm2].
    destruct Hsplit as (pre2 & -> & Hsplit).
    assert (Hin : In (EvTimer k d)
                    (trace (retryLoop env (injected c ctx) (baseURL ++ path) method
                              jsonData result n 0 None)))
      by (rewrite Hsplit; apply in_elt).
    specialize (Hev _ Hin). simpl in Hev. destruct Hev as (Hr & _ & ->).
    split; [apply Hdelay; lia |].
    intros e He. rewrite Herr.
    eapply retryLoop_cancelled; eauto.
Qed.

Lemma backoff_and_cancellation_witness :
  let o := snd (doRequest always500ThenCancelled tokenClient Background "GET"
                  "/api/anamericano/read/document/doc1" None (Some IntoPermissions)) in
  (exists pre, trace o = (pre ++ [EvTimer 1 (1 * Second)])%list) /\
  err o = Some (ctxError Canceled).
Proof.
  intros o.
  assert (Hfit : forall k, 0 < k <= MaxRetries (options tokenClient) ->
            - 2 ^ 63 <= RetryDelay (options tokenClient) * k < 2 ^ 63).
  { intros k Hk. change (MaxRetries (options tokenClient)) with 3 in Hk.
    change (RetryDelay (options tokenClient)) with 1000000000.
    change (2 ^ 63) with 9223372036854775808. lia. }
  pose proof (backoff_and_cancellation always500ThenCancelled tokenClient Background
                "GET" "/api/anamericano/read/document/doc1" None
                (Some IntoPermissions) Hfit 1 ltac:(lia)) as (_ & Hcancel).
  set (pre := firstn 3 (trace o)).
  destruct (Hcancel pre [] (1 * Second) eq_refl) as (_ & Hlast).
  destruct (Hlast Canceled eq_refl) as (_ & Herr).
  split; [exists pre; reflexivity | exact Herr].
Defined.

(** C7.  A call with a body calls [json.Marshal] exactly once, before
    anything else, and every request it hands to the transport, on whatever
    attempt, carries exactly the bytes that call returned: the bytes sent
    on any two attempts are the same. *)
Theorem body_serialized_once env c ctx method path b result :
  let o := snd (doRequest env c ctx method path (Some b) result) in
  marshals (trace o) = 1 /\
  (exists tl, trace o = EvMarshal b :: tl) /\
  (forall k req t,
     In (EvDoTimeout k req t) (trace o) -> json_Marshal env b = inr (Body req)) /\
  (forall k1 req1 t1 k2 req2 t2,
     In (EvDoTimeout k1 req1 t1) (trace o) ->
     In (EvDoTimeout k2 req2 t2) (trace o) ->
     Body req2 = Body req1).
Proof.
  intros o.
  destruct (json_Marshal env b) as [e0 | jsonData] eqn:Hjson.
  { subst o. rewrite (doRequest_marshal_error _ _ _ _ _ _ _ _ Hjson). simpl.
    split; [reflexivity | split; [eauto | split]].
    - intros k req t [Hin | []]. discriminate.
    - intros k1 req1 t1 k2 req2 t2 [Hin | []]. discriminate. }
  destruct (doRequest_loop env c ctx method path (Some b) result jsonData Hjson)
    as (_ & Htr & _).
  fold o in Htr. simpl marshalEvents in Htr.
  set (n := Z.to_nat (MaxRetries (options c) + 1)) in *.
  pose proof (retryLoop_events env (injected c ctx) (baseURL ++ path) method
                jsonData result n 0 None) as Hev.
  assert (Hbody : forall k req t, In (EvDoTimeout k req t) (trace o) ->
                                  Body req = jsonData).
  { intros k req t Hin. rewrite Htr in Hin. destruct Hin as [Hin | Hin]; [discriminate |].
    rewrite Forall_forall in Hev. specialize (Hev _ Hin). simpl in Hev. tauto. }
  split; [| split; [| split]].
  - rewrite Htr. unfold marshals.
    change ([EvMarshal b] ++ ?l)%list with (EvMarshal b :: l).
    cbn [filter isMarshal]. rewrite filter_none; [reflexivity |].
    eapply Forall_impl; [| exact Hev].
    intros [ | | | | | ]; simpl; tauto.
  - rewrite Htr. eexists. reflexivity.
  - intros k req t Hin. now rewrite (Hbody _ _ _ Hin).
  - intros k1 req1 t1 k2 req2 t2 H1 H2.
    rewrite (Hbody _ _ _ H1), (Hbody _ _ _ H2). reflexivity.
Qed.

Lemma body_serialized_once_witness :
  let o := snd (doRequest always429 tokenClient Background "POST" "/api/anamericano/check"
                  (Some (CheckPayload sampleCheck)) (Some IntoCheckResponse)) in
  sends (trace o) = 4 /\
  forall k req t, In (EvDoTimeout k req t) (trace o) -> Body req = sampleJSON.
Proof.
  intros o. split; [reflexivity |].
  intros k req t Hin.
  destruct (body_serialized_once always429 tokenClient Background "POST"
              "/api/anamericano/check" (CheckPayload sampleCheck)
              (Some IntoCheckResponse)) as (_ & _ & Hbytes & _).
  specialize (Hbytes k req t Hin). simpl in Hbytes. congruence.
Defined.

(** C8, as the code has it.  On a client that holds an authenticator every
    attempt calls it exactly once; on a client that holds none no attempt
    calls one.  Every call is made on the client's authenticator after the
    hand-over of the caller's context, so the context-scoped and
    provider-scoped variants read the caller's context. *)
Theorem one_stamp_per_attempt env c ctx method path body result :
  let o := snd (doRequest env c ctx method path body result) in
  (auth c <> None ->
   forall k, In (EvAcquire k) (trace o) -> stampsAt k (trace o) = 1) /\
  (auth c = None -> forall k, stampsAt k (trace o) = 0) /\
  (forall k x,
     In (EvAuthenticate k x) (trace o) ->
     injectContext (auth c) ctx = Some x /\
     (contextAware x = true -> authContext x = Some ctx)).
Proof.
  intros o.
  assert (Hinj : forall x, injectContext (auth c) ctx = Some x ->
                           contextAware x = true -> authContext x = Some ctx).
  { intros x Hx Haware. unfold injectContext in Hx.
    destruct (auth c) as [[t | t | p dc | cc] | ]; inversion Hx; subst;
      simpl in *; congruence. }
  destruct (jsonOf env body) as [e0 | jsonData] eqn:Hjson.
  { destruct body as [b | ]; [| discriminate].
    subst o. rewrite (doRequest_marshal_error _ _ _ _ _ _ _ _ Hjson). simpl.
    split; [| split].
    - intros _ k [Hin | []]. discriminate.
    - reflexivity.
    - intros k x [Hin | []]. discriminate. }
  destruct (doRequest_loop env c ctx method path body result jsonData Hjson)
    as (_ & Htr & _).
  fold o in Htr.
  destruct (marshalEvents_kinds body) as (Hm1 & _ & _ & Hm4).
  set (n := Z.to_nat (MaxRetries (options c) + 1)) in *.
  set (l := trace (retryLoop env (injected c ctx) (baseURL ++ path) method jsonData
                     result n 0 None)) in *.
  assert (Hclient : forall k x, In (EvAuthenticate k x) (trace o) ->
                                injectContext (auth c) ctx = Some x).
  { intros k x Hin. rewrite Htr in Hin. apply in_app_or in Hin.
    destruct Hin as [Hin | Hin].
    - exfalso. revert Hin. apply (not_in_kind (isAuthenticateAt k)); [apply Hm4 |].
      simpl. apply Z.eqb_refl.
    - apply (retryLoop_stamps_client _ _ _ _ _ _ _ _ _ _ _ Hin). }
  split; [| split].
  - intros Hauth k Hin. rewrite Htr in Hin |- *.
    rewrite stampsAt_app, (stampsAt_none _ _ (Hm4 k)).
    apply in_app_or in Hin. destruct Hin as [Hin | Hin].
    { exfalso. revert Hin. apply (not_in_kind isAcquire); [exact Hm1 | reflexivity]. }
    destruct (injectContext (auth c) ctx) as [x | ] eqn:Hx.
    + apply (retryLoop_one_stamp env (injected c ctx) _ _ _ _ n 0 None k x Hx Hin).
    + unfold injectContext in Hx.
      destruct (auth c) as [[t | t | p dc | cc] | ]; congruence.
  - intros Hnone k. apply stampsAt_none. rewrite Forall_forall.
    intros [ | | | | j x | ] Hin; try reflexivity.
    apply Hclient in Hin. rewrite Hnone in Hin. discriminate.
  - intros k x Hin. split; [eauto | intros Haware; eauto].
Qed.

Lemma one_stamp_per_attempt_witness :
  let o := snd (doRequest always429 contextClient (WithToken Background "user-token")
                  "GET" "/api/anamericano/read/document/doc1" None
                  (Some IntoPermissions)) in
  stampsAt 2 (trace o) = 1 /\
  authContext (ContextTokenAuth (Some (WithToken Background "user-token")))
    = Some (WithToken Background "user-token").
Proof.
  intros o.
  pose proof (one_stamp_per_attempt always429 contextClient
                (WithToken Background "user-token") "GET"
                "/api/anamericano/read/document/doc1" None (Some IntoPermissions))
    as (Hone & _ & Hctx).
  split.
  - apply Hone; [discriminate |]. vm_compute. tauto.
  - apply (Hctx 0 (ContextTokenAuth (Some (WithToken Background "user-token")))).
    + vm_compute. tauto.
    + reflexivity.
Defined.

(** C8 as stated fails on a client without an authenticator: its attempt
    calls none. *)
Lemma anonymous_attempt_is_not_stamped :
  let o := snd (doRequest always404 anonymousClient Background "GET"
                  "/api/anamericano/read/document/doc1" None
                  (Some IntoPermissions)) in
  In (EvAcquire 0) (trace o) /\ stampsAt 0 (trace o) <> 1.
Proof.
  vm_compute. split; [tauto | discriminate].
Qed.

(** ** The facade *)



Lemma orNil_trace zero r : trace (snd (orNil zero r)) = trace (snd r).
Proof.
  unfold orNil. destruct r as (c, o). destruct (err o); reflexivity.
Qed.




(** C10.  Each domain operation given a nil request, or a request or
    argument with an empty required field, returns an error without a
    single call to a collaborator: the trace is empty and the client is
    left as it was. *)
Theorem invalid_requests_never_reach_the_network env c ctx :
  (forall req, checkInvalid req ->
     exists e, CheckPermission env c ctx req = (c, mkOutcome [] (Some e) None)) /\
  (forall req, writeInvalid req ->
     exists e, WritePermission env c ctx req = (c, mkOutcome [] (Some e) None)) /\
  (forall req, deleteInvalid req ->
     exists e, DeletePermission env c ctx req = (c, mkOutcome [] (Some e) None)) /\
  (forall namespace objectID,
     namespace = "" \/ objectID = "" ->
     exists e, ReadPermissions env c ctx namespace objectID
               = (c, mkOutcome [] (Some e) None)) /\
  (forall namespace objectID relation,
     namespace = "" \/ objectID = "" \/ relation = "" ->
     exists e, ExpandPermissions env c ctx namespace objectID relation
               = (c, mkOutcome [] (Some e) None)) /\
  (forall subjectType subjectID relation namespace,
     subjectType = "" \/ subjectID = "" \/ relation = "" \/ namespace = "" ->
     exists e, ListObjects env c ctx subjectType subjectID relation namespace
               = (c, mkOutcome [] (Some e) None)).
Proof.
  split; [| split; [| split; [| split; [| split]]]].
  - intros [r | ] Hbad; unfold CheckPermission, reject; [| eauto].
    assert (Hv : PermissionCheckRequest.Validate r <> None).
    { unfold PermissionCheckRequest.Validate. simpl in Hbad.
      repeat match goal with
             | |- context [(?s =? "")%string] =>
                 destruct (String.eqb_spec s ""); [discriminate |]
             end.
      tauto. }
    destruct (PermissionCheckRequest.Validate r); [eauto | congruence].
  - intros [r | ] Hbad; unfold WritePermission, reject; [| eauto].
    assert (Hv : PermissionWriteRequest.Validate r <> None).
    { unfold PermissionWriteRequest.Validate. simpl in Hbad.
      repeat match goal with
             | |- context [(?s =? "")%string] =>
                 destruct (String.eqb_spec s ""); [discriminate |]
             end.
      tauto. }
    destruct (PermissionWriteRequest.Validate r); [eauto | congruence].
  - intros [r | ] Hbad; unfold DeletePermission, reject; [| eauto].
    assert (Hv : PermissionDeleteRequest.Validate r <> None).
    { unfold PermissionDeleteRequest.Validate. simpl in Hbad.
      repeat match goal with
             | |- context [(?s =? "")%string] =>
                 destruct (String.eqb_spec s ""); [discriminate |]
             end.
      tauto. }
    destruct (PermissionDeleteRequest.Validate r); [eauto | congruence].
  - intros ns oid Hbad. unfold ReadPermissions, reject.
    repeat match goal with
           | |- context [(?s =? "")%string] =>
               destruct (String.eqb_spec s ""); [eauto |]
           end.
    tauto.
  - intros ns oid rel Hbad. unfold ExpandPermissions, reject.
    repeat match goal with
           | |- context [(?s =? "")%string] =>
               destruct (String.eqb_spec s ""); [eauto |]
           end.
    tauto.
  - intros st sid rel ns Hbad. unfold ListObjects, reject.
    repeat match goal with
           | |- context [(?s =? "")%string] =>
               destruct (String.eqb_spec s ""); [eauto |]
           end.
    tauto.
Qed.


Lemma invalid_requests_never_reach_the_network_witness :
  (exists e, CheckPermission always404 tokenClient Background None
             = (tokenClient, mkOutcome [] (Some e) None)) /\
  (exists e, ReadPermissions always404 tokenClient Background "document" ""
             = (tokenClient, mkOutcome [] (Some e) None)).
Proof.
  destruct (invalid_requests_never_reach_the_network always404 tokenClient Background)
    as (Hcheck & _ & _ & Hread & _).
  split.
  - apply Hcheck. simpl. exact I.
  - apply Hread. right. reflexivity.
Defined.

(** ** Errors of an attempt that the loop retries *)

(** C1, on the code.  With an empty bearer token the stamp fails on every
    attempt; the call does not stop at the first failure but makes all four
    attempts of the default configuration, never reaching the transport, and
    returns the authentication error inside "max retries exceeded". *)
Theorem authentication_failure_is_retried :
  let o := snd (doRequest always404 emptyTokenClient Background "POST"
                  "/api/anamericano/check" (Some (CheckPayload sampleCheck))
                  (Some IntoCheckResponse)) in
  attempts (trace o) = 4 /\
  sends (trace o) = 0 /\
  err o = Some (wrapError "max retries exceeded"
                  (Some (wrapError "authentication failed"
                           (Some (errorString "bearer token is empty"))))).
Proof.
  vm_compute. auto.
Qed.

(** C4, on the code.  A 200 response whose non-empty body does not decode
    into the requested sink is not returned at once: the call makes all
    four attempts of the default configuration and returns the decoding
    error inside "max retries exceeded". *)
Theorem undecodable_success_is_retried :
  let o := snd (doRequest garbledSuccess tokenClient Background "GET"
                  "/api/anamericano/read/document/doc1" None
                  (Some IntoPermissions)) in
  attempts (trace o) = 4 /\
  sends (trace o) = 4 /\
  err o = Some (wrapError "max retries exceeded"
                  (Some (wrapError "failed to unmarshal response"
                           (Some (errorString "unexpected end of JSON input"))))).
Proof.
  vm_compute. auto.
Qed.

(** C5, on the code.  A 502 response whose body is not [APIError] JSON is
    not returned at once: the call makes all four attempts of the default
    configuration and returns the "HTTP 502" error inside "max retries
    exceeded". *)
Theorem malformed_error_body_is_retried :
  let o := snd (doRequest garbledFailure tokenClient Background "GET"
                  "/api/anamericano/read/document/doc1" None
                  (Some IntoPermissions)) in
  attempts (trace o) = 4 /\
  sends (trace o) = 4 /\
  err o = Some (wrapError "max retries exceeded"
                  (Some (httpError 502 ["<"%byte]))).
Proof.
  vm_compute. auto.
Qed.

(** ** The loop at work *)

(** Two 500s and then a 200: the call succeeds on its third attempt. *)
Example succeeds_on_third_attempt :
  let o := snd (DeletePermission (flakyServer 2) tokenClient Background
                  (Some (PermissionDeleteRequest.mk "document" "doc1" "viewer" "user" "hanul"))) in
  err o = None /\ attempts (trace o) = 3 /\ sends (trace o) = 3.
Proof.
  vm_compute. auto.
Qed.

(** ** Credential strategies *)

(** X1.  Whatever the strategy, a stamp that succeeds changes nothing of the
    request but its Authorization header, which it sets to "Bearer "
    followed by a non-empty token. *)
Theorem successful_stamp_sets_bearer_only a k req req' :
  AuthenticateFastHTTP a k req = inr req' ->
  exists token, token <> "" /\ req' = SetAuthorization req ("Bearer " ++ token).
Proof.
  unfold AuthenticateFastHTTP, BearerTokenAuth_AuthenticateFastHTTP,
    OAuthTokenAuth_AuthenticateFastHTTP, DynamicTokenAuth_AuthenticateFastHTTP,
    ContextTokenAuth_AuthenticateFastHTTP.
  intros H. destruct a as [t | t | p dc | cc].
  - destruct (String.eqb_spec t ""); inversion H. eauto.
  - destruct (String.eqb_spec t ""); inversion H. eauto.
  - destruct (GetToken p k _) as [e | t]; [discriminate |].
    destruct (String.eqb_spec t ""); inversion H. eauto.
  - destruct cc as [cx | ]; [| discriminate].
    destruct (ctxToken cx) as [t | ]; [| discriminate].
    destruct (String.eqb_spec t ""); inversion H. eauto.
Qed.

Lemma successful_stamp_sets_bearer_only_witness :
  exists token,
    token <> "" /\
    SetAuthorization AcquireRequest "Bearer test-token"
      = SetAuthorization AcquireRequest ("Bearer " ++ token).
Proof.
  apply (successful_stamp_sets_bearer_only (OAuthTokenAuth "test-token") 0 AcquireRequest).
  reflexivity.
Defined.

(** X2.  The bearer and the OAuth strategy stamp alike: with the same
    token both fail, exactly when it is empty, or both produce the same
    request, with the header "Bearer " followed by the token. *)
Theorem bearer_and_oauth_stamp_alike token k req :
  match AuthenticateFastHTTP (BearerTokenAuth token) k req,
        AuthenticateFastHTTP (OAuthTokenAuth token) k req with
  | inr r1, inr r2 =>
      token <> "" /\ r1 = r2 /\ Authorization r1 = Some ("Bearer " ++ token)
  | inl _, inl _ => token = ""
  | _, _ => False
  end.
Proof.
  unfold AuthenticateFastHTTP, BearerTokenAuth_AuthenticateFastHTTP,
    OAuthTokenAuth_AuthenticateFastHTTP.
  destruct (String.eqb_spec token ""); simpl; auto.
Qed.

(** X3.  A token attached to a context with [WithToken] is the token the
    context strategy stamps with, whatever the parent context; an empty
    token attached that way is refused. *)
Theorem context_token_round_trip parent token k req :
  AuthenticateFastHTTP (ContextTokenAuth (Some (WithToken parent token))) k req
  = if (token =? "")%string
    then inl (errorString "no token found in context")
    else inr (SetAuthorization req ("Bearer " ++ token)).
Proof.
  unfold AuthenticateFastHTTP, ContextTokenAuth_AuthenticateFastHTTP, WithToken.
  simpl. destruct (token =? "")%string; reflexivity.
Qed.

(** X4.  The context strategy fails exactly when it holds no context, or a
    context without a token, or a context whose token is empty. *)
Theorem context_token_fails_without_token cctx k req :
  (exists e, AuthenticateFastHTTP (ContextTokenAuth cctx) k req = inl e) <->
  (cctx = None \/
   exists ctx, cctx = Some ctx /\ (ctxToken ctx = None \/ ctxToken ctx = Some "")).
Proof.
  unfold AuthenticateFastHTTP, ContextTokenAuth_AuthenticateFastHTTP.
  destruct cctx as [cx | ].
  - destruct (ctxToken cx) as [t | ] eqn:Ht.
    + destruct (String.eqb_spec t "") as [-> | Hne].
      * split; [right | eauto]. eauto.
      * split.
        -- intros (e & He). discriminate.
        -- intros [H | (cx' & Heq & [H | H])]; try discriminate;
             injection Heq as <-; congruence.
    + split; [right | eauto]. eauto.
  - split; eauto.
Qed.

(** ** Error classification *)

(** X5.  At most one of the four classification predicates holds of an
    [APIError], and an error of which one holds has a status that the
    retry loop treats as final. *)
Theorem classification_is_exclusive_and_final e :
  (Nat.b2n (IsPermissionDenied e) + Nat.b2n (IsUnauthorized e)
   + Nat.b2n (IsNotFound e) + Nat.b2n (IsBadRequest e) <= 1)%nat /\
  (IsPermissionDenied e || IsUnauthorized e || IsNotFound e || IsBadRequest e = true ->
   isClientError (Status e) = true).
Proof.
  unfold IsPermissionDenied, IsUnauthorized, IsNotFound, IsBadRequest,
    StatusForbidden, StatusUnauthorized, StatusNotFound, StatusBadRequest.
  destruct (Z.eqb_spec (Status e) 403) as [-> | H403]; [simpl; auto |].
  destruct (Z.eqb_spec (Status e) 401) as [-> | H401]; [simpl; auto |].
  destruct (Z.eqb_spec (Status e) 404) as [-> | H404]; [simpl; auto |].
  destruct (Z.eqb_spec (Status e) 400) as [-> | H400]; [simpl; auto |].
  simpl. split; [lia | discriminate].
Qed.

Lemma classification_is_exclusive_and_final_witness :
  isClientError (Status notFound) = true.
Proof.
  apply (classification_is_exclusive_and_final notFound). reflexivity.
Defined.

(** ** Construction *)

(** X6.  A client built by [NewClient] has no zero option, whatever it was
    given: in particular a supplied MaxRetries of 0 becomes 3.  The
    authenticator and the logger are the ones supplied. *)
Theorem NewClient_leaves_no_zero_option a opts :
  let c := NewClient a opts in
  Timeout (options c) <> 0 /\
  MaxRetries (options c) <> 0 /\
  RetryDelay (options c) <> 0 /\
  MaxConnsPerHost (options c) <> 0 /\
  MaxIdleConnDuration (options c) <> 0 /\
  auth c = a /\
  logger (options c) = match opts with
                       | None => None
                       | Some o => logger o
                       end.
Proof.
  assert (H : forall x d, d <> 0 -> orDefault x d <> 0).
  { intros x d Hd. unfold orDefault. destruct (Z.eqb_spec x 0); auto. }
  unfold NewClient. cbn [options auth Timeout MaxRetries RetryDelay MaxConnsPerHost
                           MaxIdleConnDuration logger].
  repeat split; try (apply H; vm_compute; discriminate).
  destruct opts; reflexivity.
Qed.

(** X7.  The merge of options and defaults is field by field: a supplied
    non-zero field is kept and a zero field takes its default.  Hence nil
    options are the same as all-zero options, and building a client from
    the options of a built client changes nothing. *)
Theorem NewClient_merges_field_by_field a o :
  let c := NewClient a (Some o) in
  Timeout (options c) = (if Timeout o =? 0 then 30 * Second else Timeout o) /\
  MaxRetries (options c) = (if MaxRetries o =? 0 then 3 else MaxRetries o) /\
  RetryDelay (options c) = (if RetryDelay o =? 0 then 1 * Second else RetryDelay o) /\
  MaxConnsPerHost (options c) = (if MaxConnsPerHost o =? 0 then 512 else MaxConnsPerHost o) /\
  MaxIdleConnDuration (options c)
    = (if MaxIdleConnDuration o =? 0 then 10 * Second else MaxIdleConnDuration o) /\
  NewClient a None = NewClient a (Some zeroOptions) /\
  NewClient a (Some (options c)) = c.
Proof.
  assert (H : forall x d, orDefault (orDefault x d) d = orDefault x d).
  { intros x d. unfold orDefault. destruct (Z.eqb_spec x 0) as [-> | Hx].
    - destruct (d =? 0); reflexivity.
    - apply Z.eqb_neq in Hx. now rewrite Hx. }
  cbv zeta. repeat split.
  unfold NewClient.
  cbn [options auth Timeout MaxRetries RetryDelay MaxConnsPerHost
         MaxIdleConnDuration logger].
  rewrite !H. reflexivity.
Qed.

(** ** The loop, case by case *)

Lemma countFrom_S a m : countFrom a (S m) = a :: countFrom (a + 1) m.
Proof.
  unfold countFrom. cbn [seq map]. f_equal; [lia |].
  rewrite <- seq_shift, map_map. apply map_ext. intros i. lia.
Qed.

Lemma acquired_app l1 l2 : acquired (l1 ++ l2) = (acquired l1 ++ acquired l2)%list.
Proof.
  unfold acquired. apply flat_map_app.
Qed.

Lemma acquired_none l :
  Forall (fun ev => isAcquire ev = false) l -> acquired l = [].
Proof.
  induction 1 as [| ev l Hev _ IH]; [reflexivity |].
  unfold acquired in *. simpl. rewrite IH.
  destruct ev; try reflexivity. discriminate.
Qed.

Lemma isLog_kinds logs :
  Forall (fun ev => isLog ev = true) logs ->
  Forall (fun ev => isAcquire ev = false) logs /\
  Forall (fun ev => isDoTimeout ev = false) logs.
Proof.
  intros H. split; (eapply Forall_impl; [| exact H]);
    intros [ | | | | | ]; simpl; congruence.
Qed.

Section LoopCases.
Variable env : Env.
Variable c : Client.
Variables url method : string.
Variable jsonData : Bytes.
Variable result : option Sink.

Let T := Timeout (options c).
Let req0 := newRequest url method jsonData.
Let loop := retryLoop env c url method jsonData result.
Let attempt := attemptOnce env c url method jsonData result.

(** An iteration is cancelled in its sleep, or stops after its attempt, or
    goes round again with the error of its attempt recorded. *)
Lemma retryLoop_cases n a lastErr :
  (exists e, 0 < a /\ ctx_Done env a = Some e /\
     loop (S n) a lastErr
       = mkOutcome [EvTimer a (Duration_mul (RetryDelay (options c)) a)]
           (Some (ctxError e)) None)
  \/
  ((0 < a -> ctx_Done env a = None) /\
   exists evs r, attempt a = (evs, r) /\
     ((exists er v, stopsWith r er v /\
         loop (S n) a lastErr = mkOutcome (backoffEvents c a ++ evs) er v)
      \/
      (exists e logs, r = inl e /\ retried e /\
         Forall (fun ev => isLog ev = true) logs /\
         loop (S n) a lastErr
           = before (backoffEvents c a ++ evs ++ logs) (loop n (a + 1) (Some e))))).
Proof.
  unfold loop, attempt, backoffEvents, stopsWith. simpl.
  destruct (attemptOnce env c url method jsonData result a) as [evs r] eqn:Hat.
  assert (Hgo :
    (exists er v,
       ((r = inr v /\ er = None) \/
        (exists x, r = inl (apiError x) /\ isClientError (Status x) = true /\
                   er = Some (apiError x) /\ v = None)) /\
       match r with
       | inr v0 => mkOutcome evs None v0
       | inl (apiError apiErr) =>
           if isClientError (Status apiErr)
           then mkOutcome evs (Some (apiError apiErr)) None
           else before evs
                  (retryLoop env c url method jsonData result n (a + 1)
                     (Some (apiError apiErr)))
       | inl e0 =>
           before (evs ++ log c LogError "request error")%list
             (retryLoop env c url method jsonData result n (a + 1) (Some e0))
       end = mkOutcome evs er v)
    \/
    (exists e logs, r = inl e /\ retried e /\
       Forall (fun ev => isLog ev = true) logs /\
       match r with
       | inr v0 => mkOutcome evs None v0
       | inl (apiError apiErr) =>
           if isClientError (Status apiErr)
           then mkOutcome evs (Some (apiError apiErr)) None
           else before evs
                  (retryLoop env c url method jsonData result n (a + 1)
                     (Some (apiError apiErr)))
       | inl e0 =>
           before (evs ++ log c LogError "request error")%list
             (retryLoop env c url method jsonData result n (a + 1) (Some e0))
       end = before (evs ++ logs)
               (retryLoop env c url method jsonData result n (a + 1) (Some e)))).
  { destruct r as [e | v].
    - destruct e as [s0 | m cause | sc bd | ae | ce];
        try (right; eexists _, (log c LogError "request error");
             repeat split; apply log_isLog).
      destruct (isClientError (Status ae)) eqn:Hce.
      + left. eexists _, _. split; [right; eauto | reflexivity].
      + right. exists (apiError ae), []. rewrite app_nil_r.
        repeat split; [exact Hce | constructor].
    - left. eexists _, _. split; [left; eauto | reflexivity]. }
  destruct (0 <? a) eqn:Hpos.
  - apply Z.ltb_lt in Hpos.
    destruct (ctx_Done env a) as [e | ] eqn:Hdone.
    + left. exists e. auto.
    + right. split; [auto |]. exists evs, r. split; [reflexivity |].
      destruct Hgo as [(er & v & Hstop & H1) | (e & logs & Hr & Hret & Hlogs & H1)];
        rewrite H1; [left | right].
      * exists er, v. split; [exact Hstop |]. unfold before. simpl.
        reflexivity.
      * exists e, logs. repeat split; auto. unfold before. simpl.
        repeat (rewrite <- ?app_assoc; simpl). reflexivity.
  - apply Z.ltb_ge in Hpos. right. split; [intros; lia |].
    exists evs, r. split; [reflexivity |].
    destruct Hgo as [(er & v & Hstop & H1) | (e & logs & Hr & Hret & Hlogs & H1)];
      rewrite H1; [left | right].
    + exists er, v. split; [exact Hstop | reflexivity].
    + exists e, logs. repeat split; auto.
Qed.

End LoopCases.

Section AttemptCases.
Variable env : Env.
Variable c : Client.
Variables url method : string.
Variable jsonData : Bytes.
Variable result : option Sink.

Let T := Timeout (options c).
Let req0 := newRequest url method jsonData.
Let attempt := attemptOnce env c url method jsonData result.

(** The events of an attempt: its start, the call of the authenticator if
    there is one, and, if the stamp succeeded, the transport call with the
    stamped request, followed by log lines only. *)
Lemma attemptOnce_events k :
  exists tl,
    fst (attempt k) = (EvAcquire k :: stampEvents (auth c) k ++ tl)%list /\
    match stamp (auth c) k req0 with
    | inl e =>
        tl = [] /\ snd (attempt k) = inl (wrapError "authentication failed" (Some e))
    | inr req =>
        exists logs, tl = EvDoTimeout k req T :: logs /\
                     Forall (fun ev => isLog ev = true) logs
    end.
Proof.
  unfold attempt. destruct (stamp (auth c) k req0) as [e | req] eqn:Hs.
  - exists []. rewrite (attemptOnce_auth_failure env c url method jsonData result k e Hs).
    simpl. rewrite app_nil_r. auto.
  - destruct (attemptOnce_sent env c url method jsonData result k req Hs)
      as (logs & r & Heq & Hlogs).
    exists (EvDoTimeout k req T :: logs). rewrite Heq. simpl. eauto.
Qed.

Lemma attemptOnce_counts k :
  attempts (fst (attempt k)) = 1 /\
  0 <= sends (fst (attempt k)) <= 1 /\
  acquired (fst (attempt k)) = [k].
Proof.
  destruct (attemptOnce_events k) as (tl & -> & Htl).
  assert (Hstamps : Forall (fun ev => isAcquire ev = false) (stampEvents (auth c) k))
    by (unfold stampEvents; destruct (auth c); repeat constructor).
  assert (Hstamps' : Forall (fun ev => isDoTimeout ev = false) (stampEvents (auth c) k))
    by (unfold stampEvents; destruct (auth c); repeat constructor).
  change (EvAcquire k :: stampEvents (auth c) k ++ tl)%list
    with ([EvAcquire k] ++ stampEvents (auth c) k ++ tl)%list.
  rewrite !attempts_app, !sends_app, !acquired_app, (acquired_none _ Hstamps),
    (attempts_none _ Hstamps), (sends_none _ Hstamps').
  destruct (stamp (auth c) k req0) as [e | req].
  - destruct Htl as (-> & _). unfold attempts, sends, acquired. simpl.
    split; [lia | split; [lia | reflexivity]].
  - destruct Htl as (logs & -> & Hlogs).
    destruct (isLog_kinds logs Hlogs) as (Hl1 & Hl2).
    change (EvDoTimeout k req T :: logs) with ([EvDoTimeout k req T] ++ logs)%list.
    rewrite attempts_app, sends_app, acquired_app, (attempts_none _ Hl1),
      (sends_none _ Hl2), (acquired_none _ Hl1).
    unfold attempts, sends, acquired. simpl.
    split; [lia | split; [lia | reflexivity]].
Qed.

(** Every request an attempt sends is the prepared request, stamped. *)
Lemma attemptOnce_sends_stamped k j req t :
  In (EvDoTimeout j req t) (fst (attempt k)) ->
  j = k /\ t = T /\ stamp (auth c) k req0 = inr req.
Proof.
  destruct (attemptOnce_events k) as (tl & -> & Htl). intros Hin.
  destruct Hin as [Hin | Hin]; [discriminate |].
  apply in_app_or in Hin. destruct Hin as [Hin | Hin].
  { unfold stampEvents in Hin. destruct (auth c); [| destruct Hin].
    destruct Hin as [Hin | []]. discriminate. }
  destruct (stamp (auth c) k req0) as [e | req1].
  - destruct Htl as (-> & _). destruct Hin.
  - destruct Htl as (logs & -> & Hlogs).
    destruct Hin as [Hin | Hin]; [injection Hin as -> -> ->; auto |].
    exfalso. revert Hin. apply (not_in_kind isDoTimeout); [| reflexivity].
    apply (isLog_kinds logs Hlogs).
Qed.

(** An attempt whose request the transport fails on. *)
Lemma attemptOnce_transport_error k e :
  transportErrorAt env c url method jsonData k = Some e ->
  snd (attempt k) = inl (wrapError "request failed" (Some e)).
Proof.
  unfold transportErrorAt, attempt, attemptOnce, stamp. intros H.
  destruct (auth c) as [a | ]; simpl in *.
  - destruct (AuthenticateFastHTTP a k _) as [e0 | req]; [discriminate |].
    simpl. destruct (DoTimeout env k req _) as [e0 | resp0]; [| discriminate].
    injection H as ->. reflexivity.
  - destruct (DoTimeout env k _ _) as [e0 | resp0]; [| discriminate].
    injection H as ->. reflexivity.
Qed.


(** An attempt decodes a value only into a sink. *)
Lemma attemptOnce_value k v :
  snd (attempt k) = inr (Some v) -> exists sink, result = Some sink.
Proof.
  unfold attempt, attemptOnce. intros H.
  destruct result as [s | ]; [eauto | exfalso].
  destruct (auth c) as [a | ]; simpl in H.
  - destruct (AuthenticateFastHTTP a k _) as [e0 | req]; [discriminate |].
    simpl in H. destruct (DoTimeout env k req _) as [e0 | resp]; [discriminate |].
    simpl in H.
    destruct ((200 <=? StatusCode resp) && (StatusCode resp <? 300)); [discriminate |].
    destruct (json_Unmarshal_APIError env (RespBody resp)); [| discriminate].
    destruct (isClientError (StatusCode resp)); simpl in H; discriminate.
  - destruct (DoTimeout env k _ _) as [e0 | resp]; [discriminate |].
    simpl in H.
    destruct ((200 <=? StatusCode resp) && (StatusCode resp <? 300)); [discriminate |].
    destruct (json_Unmarshal_APIError env (RespBody resp)); [| discriminate].
    destruct (isClientError (StatusCode resp)); simpl in H; discriminate.
Qed.

End AttemptCases.

Lemma backoffEvents_silent c a :
  attempts (backoffEvents c a) = 0 /\
  sends (backoffEvents c a) = 0 /\
  acquired (backoffEvents c a) = [].
Proof.
  unfold backoffEvents, log.
  destruct (0 <? a); destruct (logger (options c)); auto.
Qed.

Lemma logs_silent logs :
  Forall (fun ev => isLog ev = true) logs ->
  attempts logs = 0 /\ sends logs = 0 /\ acquired logs = [].
Proof.
  intros H. destruct (isLog_kinds logs H) as (H1 & H2).
  rewrite (attempts_none _ H1), (sends_none _ H2), (acquired_none _ H1). auto.
Qed.

Section LoopProperties.
Variable env : Env.
Variable c : Client.
Variables url method : string.
Variable jsonData : Bytes.
Variable result : option Sink.

Let T := Timeout (options c).
Let req0 := newRequest url method jsonData.
Let loop := retryLoop env c url method jsonData result.

(** The attempts of the loop are numbered from its first attempt on,
    without gap or repetition; there are at most as many as iterations,
    and no more requests are sent than attempts are made. *)
Lemma retryLoop_numbering n : forall a lastErr,
  exists m, (m <= n)%nat /\
    acquired (trace (loop n a lastErr)) = countFrom a m /\
    attempts (trace (loop n a lastErr)) = Z.of_nat m /\
    0 <= sends (trace (loop n a lastErr)) <= Z.of_nat m.
Proof.
  unfold loop. induction n as [| n IH]; intros a lastErr.
  - exists 0%nat. simpl. repeat split; auto; reflexivity.
  - destruct (backoffEvents_silent c a) as (Hb1 & Hb2 & Hb3).
    destruct (retryLoop_cases env c url method jsonData result n a lastErr)
      as [(e & _ & _ & Heq) | (_ & evs & r & Hat & Hcase)].
    + exists 0%nat. rewrite Heq. simpl. repeat split; try lia; reflexivity.
    + pose proof (attemptOnce_counts env c url method jsonData result a) as Hc.
      rewrite Hat in Hc. simpl in Hc. destruct Hc as (Hc1 & Hc2 & Hc3).
      destruct Hcase as [(er & v & _ & Heq) | (e & logs & _ & _ & Hlogs & Heq)];
        rewrite Heq.
      * exists 1%nat. cbn [trace].
        rewrite acquired_app, attempts_app, sends_app, Hb1, Hb2, Hb3, Hc1, Hc3.
        rewrite countFrom_S.
        split; [lia | split; [reflexivity | split; lia]].
      * destruct (IH (a + 1) (Some e)) as (m & Hm & Hacq & Hatt & Hsnd).
        destruct (logs_silent logs Hlogs) as (Hl1 & Hl2 & Hl3).
        exists (S m). unfold before. cbn [trace].
        rewrite !acquired_app, !attempts_app, !sends_app,
          Hb1, Hb2, Hb3, Hc1, Hc3, Hl1, Hl2, Hl3, Hacq, Hatt, countFrom_S.
        split; [lia | split; [reflexivity | split; lia]].
Qed.

(** Every request the loop sends is the prepared request, stamped by the
    client's authenticator for the attempt it is sent on. *)
Lemma retryLoop_sends_stamped n : forall a lastErr j req t,
  In (EvDoTimeout j req t) (trace (loop n a lastErr)) ->
  t = T /\ stamp (auth c) j req0 = inr req.
Proof.
  unfold loop. induction n as [| n IH]; intros a lastErr j req t Hin.
  - destruct Hin.
  - assert (Hb : ~ In (EvDoTimeout j req t) (backoffEvents c a)).
    { unfold backoffEvents, log.
      destruct (0 <? a); destruct (logger (options c)); simpl; intuition discriminate. }
    destruct (retryLoop_cases env c url method jsonData result n a lastErr)
      as [(e & _ & _ & Heq) | (_ & evs & r & Hat & Hcase)].
    + rewrite Heq in Hin. destruct Hin as [Hin | []]. discriminate.
    + assert (Hevs : In (EvDoTimeout j req t) evs ->
                     t = T /\ stamp (auth c) j req0 = inr req).
      { intros H. pose proof (attemptOnce_sends_stamped env c url method jsonData
                                result a j req t) as Hs.
        rewrite Hat in Hs. destruct (Hs H) as (-> & -> & Hst). auto. }
      destruct Hcase as [(er & v & _ & Heq) | (e & logs & _ & _ & Hlogs & Heq)];
        rewrite Heq in Hin; cbn [trace before] in Hin.
      * apply in_app_or in Hin. destruct Hin as [Hin | Hin]; [contradiction | auto].
      * repeat (apply in_app_or in Hin; destruct Hin as [Hin | Hin]); eauto.
        -- contradiction.
        -- exfalso. revert Hin. apply (not_in_kind isDoTimeout); [| reflexivity].
           apply (isLog_kinds logs Hlogs).
Qed.

(** What the loop returns as an error is the context's error, a bare
    [APIError] of a final status, or the exhaustion wrapper. *)
Lemma retryLoop_returnable n : forall a lastErr e,
  err (loop n a lastErr) = Some e -> returnable e.
Proof.
  unfold loop. induction n as [| n IH]; intros a lastErr e He.
  - simpl in He. injection He as <-. simpl. auto.
  - destruct (retryLoop_cases env c url method jsonData result n a lastErr)
      as [(e0 & _ & _ & Heq) | (_ & evs & r & Hat & Hcase)].
    + rewrite Heq in He. injection He as <-. exact I.
    + destruct Hcase as [(er & v & Hstop & Heq) | (e1 & logs & _ & _ & _ & Heq)];
        rewrite Heq in He; cbn [err before] in He.
      * destruct Hstop as [(_ & ->) | (x & _ & Hx & -> & _)]; [discriminate |].
        injection He as <-. exact Hx.
      * eapply IH; eauto.
Qed.

(** Without a sink the loop decodes nothing. *)
Lemma retryLoop_no_sink n : forall a lastErr,
  result = None -> value (loop n a lastErr) = None.
Proof.
  unfold loop. induction n as [| n IH]; intros a lastErr Hres; [reflexivity |].
  destruct (retryLoop_cases env c url method jsonData result n a lastErr)
    as [(e0 & _ & _ & Heq) | (_ & evs & r & Hat & Hcase)].
  - now rewrite Heq.
  - destruct Hcase as [(er & v & Hstop & Heq) | (e1 & logs & _ & _ & _ & Heq)];
      rewrite Heq; cbn [value before].
    + destruct Hstop as [(-> & _) | (x & _ & _ & _ & ->)]; [| reflexivity].
      destruct v as [v | ]; [| reflexivity].
      pose proof (attemptOnce_value env c url method jsonData result a v) as Hv.
      rewrite Hat in Hv. destruct (Hv eq_refl) as (sink & Hsink). congruence.
    + now apply IH.
Qed.

End LoopProperties.

Section LoopRuns.
Variable env : Env.
Variable c : Client.
Variables url method : string.
Variable jsonData : Bytes.
Variable result : option Sink.

Let T := Timeout (options c).
Let req0 := newRequest url method jsonData.
Let attempt := attemptOnce env c url method jsonData result.

(** An attempt whose stamp succeeds sends exactly one request. *)
Lemma attemptOnce_one_send k req :
  stamp (auth c) k req0 = inr req -> sends (fst (attempt k)) = 1.
Proof.
  intros Hs. destruct (attemptOnce_events env c url method jsonData result k)
    as (tl & Hevs & Htl).
  fold attempt in Hevs. rewrite Hevs. fold req0 in Htl. rewrite Hs in Htl.
  destruct Htl as (logs & -> & Hlogs).
  destruct (isLog_kinds logs Hlogs) as (_ & Hl2).
  assert (Hstamps : Forall (fun ev => isDoTimeout ev = false) (stampEvents (auth c) k))
    by (unfold stampEvents; destruct (auth c); repeat constructor).
  change (sends ([EvAcquire k] ++ stampEvents (auth c) k
                 ++ [EvDoTimeout k req T] ++ logs) = 1).
  rewrite !sends_app, (sends_none _ Hstamps), (sends_none _ Hl2). reflexivity.
Qed.

(** [m] attempts in a row that each send a request and end in an error
    the loop retries, with no sleep cancelled: the loop makes them all and
    then goes on as a loop of the remaining iterations, with the error of
    the last of them recorded. *)
Lemma retryLoop_retries m : forall a lastErr n,
  (forall k, a <= k < a + Z.of_nat m ->
     (0 < k -> ctx_Done env k = None) /\
     (exists req, stamp (auth c) k req0 = inr req) /\
     exists e, snd (attempt k) = inl e /\ retried e) ->
  exists pre lastErr',
    let rest := retryLoop env c url method jsonData result n (a + Z.of_nat m) lastErr' in
    let o := retryLoop env c url method jsonData result (m + n) a lastErr in
    trace o = (pre ++ trace rest)%list /\ err o = err rest /\ value o = value rest /\
    attempts pre = Z.of_nat m /\ sends pre = Z.of_nat m /\
    match m with
    | O => lastErr' = lastErr
    | S m' => exists e, snd (attempt (a + Z.of_nat m')) = inl e /\ lastErr' = Some e
    end.
Proof.
  induction m as [| m IH]; intros a lastErr n Hall.
  - exists [], lastErr. replace (a + Z.of_nat 0) with a by lia.
    cbv zeta. cbn [Nat.add app]. repeat split.
  - destruct (Hall a ltac:(lia)) as (Hdone & (req & Hreq) & e & He & Hret).
    destruct (retryLoop_cases env c url method jsonData result (m + n) a lastErr)
      as [(e0 & Hpos & Hc & _) | (_ & evs & r & Hat & Hcase)].
    { rewrite (Hdone Hpos) in Hc. discriminate. }
    fold attempt in Hat. rewrite Hat in He. simpl in He. subst r.
    destruct Hcase as [(er & v & Hstop & _) | (e1 & logs & Hr & _ & Hlogs & Heq)].
    { exfalso. destruct Hstop as [(Hr & _) | (x & Hr & Hx & _)]; [discriminate |].
      injection Hr as ->. simpl in Hret. congruence. }
    injection Hr as <-.
    destruct (IH (a + 1) (Some e) n) as (pre & l' & Htr & Herr & Hval & Hatt & Hsnd & Hlast).
    { intros k Hk. apply Hall. lia. }
    cbv zeta in Htr, Herr, Hval.
    replace (a + 1 + Z.of_nat m) with (a + Z.of_nat (S m)) in * by lia.
    destruct (backoffEvents_silent c a) as (Hb1 & Hb2 & _).
    destruct (logs_silent logs Hlogs) as (Hl1 & Hl2 & _).
    pose proof (attemptOnce_counts env c url method jsonData result a) as (Hc1 & _ & _).
    pose proof (attemptOnce_one_send a req Hreq) as Hc2.
    fold attempt in Hc1. rewrite Hat in Hc1, Hc2. simpl in Hc1, Hc2.
    exists ((backoffEvents c a ++ evs ++ logs) ++ pre)%list, l'.
    cbv zeta. change (S m + n)%nat with (S (m + n)). rewrite Heq.
    unfold before. cbn [trace err value]. rewrite Htr, Herr, Hval.
    rewrite !attempts_app, !sends_app, Hb1, Hb2, Hc1, Hc2, Hl1, Hl2, Hatt, Hsnd.
    repeat split; try lia.
    + now rewrite app_assoc.
    + destruct m as [| m'].
      * subst l'. exists e. replace (a + Z.of_nat 0) with a by lia.
        rewrite Hat. auto.
      * destruct Hlast as (e2 & He2 & ->). exists e2. split; [| reflexivity].
        replace (a + Z.of_nat (S m')) with (a + 1 + Z.of_nat m') by lia. exact He2.
Qed.

End LoopRuns.

(** ** More of [doRequest] *)

Lemma stamp_result a k req req' :
  stamp a k req = inr req' ->
  match a with
  | None => req' = req
  | Some _ => exists token, token <> "" /\ req' = SetAuthorization req ("Bearer " ++ token)
  end.
Proof.
  unfold stamp, AuthenticateFastHTTP, BearerTokenAuth_AuthenticateFastHTTP,
    OAuthTokenAuth_AuthenticateFastHTTP, DynamicTokenAuth_AuthenticateFastHTTP,
    ContextTokenAuth_AuthenticateFastHTTP.
  intros H. destruct a as [[t | t | p dc | cc] | ].
  - destruct (String.eqb_spec t ""); inversion H. eauto.
  - destruct (String.eqb_spec t ""); inversion H. eauto.
  - destruct (GetToken p k _) as [e | t]; [discriminate |].
    destruct (String.eqb_spec t ""); inversion H. eauto.
  - destruct cc as [cx | ]; [| discriminate].
    destruct (ctxToken cx) as [t | ]; [| discriminate].
    destruct (String.eqb_spec t ""); inversion H. eauto.
  - now inversion H.
Qed.



(** Every request a call sends is the prepared request, stamped by the
    client's authenticator as the call left it. *)
Lemma doRequest_sends_stamped env c ctx method path body result jsonData k req t :
  jsonOf env body = inr jsonData ->
  In (EvDoTimeout k req t) (trace (snd (doRequest env c ctx method path body result))) ->
  t = Timeout (options c) /\
  stamp (injectContext (auth c) ctx) k (newRequest (baseURL ++ path) method jsonData)
    = inr req.
Proof.
  intros Hjson Hin.
  destruct (doRequest_loop env c ctx method path body result jsonData Hjson)
    as (_ & Htr & _).
  rewrite Htr in Hin. apply in_app_or in Hin. destruct Hin as [Hin | Hin].
  - destruct body; simpl in Hin; [destruct Hin as [Hin | []]; discriminate | destruct Hin].
  - apply (retryLoop_sends_stamped env (injected c ctx) (baseURL ++ path) method
             jsonData result _ _ _ _ _ _ Hin).
Qed.

(** X8.  The attempts of a call are numbered 0, 1, 2, ... in the order
    they are made, without gap or repetition; there are at most
    MaxRetries+1 of them (none for a negative MaxRetries), and no more
    requests are sent than attempts are made. *)
Theorem attempts_are_numbered_and_bounded env c ctx method path body result :
  let o := snd (doRequest env c ctx method path body result) in
  exists m,
    acquired (trace o) = countFrom 0 m /\
    attempts (trace o) = Z.of_nat m /\
    Z.of_nat m <= Z.max 0 (MaxRetries (options c) + 1) /\
    0 <= sends (trace o) <= attempts (trace o).
Proof.
  intros o.
  destruct (jsonOf env body) as [e0 | jsonData] eqn:Hjson.
  { destruct body as [b | ]; [| discriminate].
    subst o. rewrite (doRequest_marshal_error _ _ _ _ _ _ _ _ Hjson).
    exists 0%nat. cbn. repeat split; try lia. }
  destruct (doRequest_loop env c ctx method path body result jsonData Hjson)
    as (_ & Htr & _).
  fold o in Htr.
  destruct (retryLoop_numbering env (injected c ctx) (baseURL ++ path) method
              jsonData result (Z.to_nat (MaxRetries (options c) + 1)) 0 None)
    as (m & Hm & Hacq & Hatt & Hsnd).
  destruct (marshalEvents_kinds body) as (Hm1 & _ & Hm3 & _).
  exists m. rewrite Htr, acquired_app, attempts_app, sends_app,
    (acquired_none _ Hm1), (attempts_none _ Hm1), (sends_none _ Hm3), Hacq, Hatt.
  cbn [app]. repeat split; try lia.
Qed.

(** X9.  With a negative MaxRetries a call makes no attempt at all: it
    serializes the body, if there is one, and returns "max retries
    exceeded" wrapping no error. *)
Theorem negative_retry_budget_sends_nothing env c ctx method path body result jsonData :
  MaxRetries (options c) < 0 ->
  jsonOf env body = inr jsonData ->
  let o := snd (doRequest env c ctx method path body result) in
  trace o = marshalEvents body /\
  attempts (trace o) = 0 /\
  err o = Some (wrapError "max retries exceeded" None).
Proof.
  intros Hneg Hjson o.
  destruct (doRequest_loop env c ctx method path body result jsonData Hjson)
    as (_ & Htr & Herr & _).
  fold o in Htr, Herr.
  replace (Z.to_nat (MaxRetries (options c) + 1)) with 0%nat in * by lia.
  cbn [retryLoop trace err] in Htr, Herr. rewrite app_nil_r in Htr.
  destruct (marshalEvents_kinds body) as (Hm1 & _).
  rewrite Htr, Herr, (attempts_none _ Hm1). auto.
Qed.

Lemma negative_retry_budget_sends_nothing_witness :
  let c := NewClient (Some (BearerTokenAuth "test-token"))
             (Some (mkClientOptions 0 (-1) 0 None 0 0)) in
  let o := snd (doRequest (flakyServer 0) c Background "GET"
                  "/api/anamericano/read/document/doc1" None (Some IntoPermissions)) in
  trace o = [] /\ attempts (trace o) = 0 /\
  err o = Some (wrapError "max retries exceeded" None).
Proof.
  apply (negative_retry_budget_sends_nothing (flakyServer 0)
           (NewClient (Some (BearerTokenAuth "test-token"))
              (Some (mkClientOptions 0 (-1) 0 None 0 0)))
           Background "GET" "/api/anamericano/read/document/doc1" None
           (Some IntoPermissions) []).
  - reflexivity.
  - reflexivity.
Defined.

(** X10.  An error returned by a call is the context's error, or a bare
    [APIError] whose own status is a client error other than 429, or one of
    the wrappers "max retries exceeded" and "failed to marshal request
    body": no error of an attempt (authentication, transport, decoding,
    malformed error body) is returned bare. *)
Theorem returned_errors_have_four_shapes env c ctx method path body result e :
  err (snd (doRequest env c ctx method path body result)) = Some e ->
  returnable e.
Proof.
  intros He.
  destruct (jsonOf env body) as [e0 | jsonData] eqn:Hjson.
  { destruct body as [b | ]; [| discriminate].
    rewrite (doRequest_marshal_error _ _ _ _ _ _ _ _ Hjson) in He.
    injection He as <-. simpl. auto. }
  destruct (doRequest_loop env c ctx method path body result jsonData Hjson)
    as (_ & _ & Herr & _).
  rewrite Herr in He.
  apply (retryLoop_returnable env (injected c ctx) (baseURL ++ path) method
           jsonData result _ _ _ _ He).
Qed.

Lemma returned_errors_have_four_shapes_witness :
  returnable (apiError notFound).
Proof.
  apply (returned_errors_have_four_shapes always404 tokenClient Background "POST"
           "/api/anamericano/check" (Some (CheckPayload sampleCheck))
           (Some IntoCheckResponse)).
  reflexivity.
Defined.

(** X11.  Every request a call sends goes out with the configured
    timeout; it has the Content-Type application/json exactly when the
    serialized body is non-empty; and it has an Authorization header, of the
    form "Bearer " followed by a non-empty token, exactly when the client
    holds an authenticator. *)
Theorem sent_requests_are_well_formed env c ctx method path body result jsonData k req t :
  jsonOf env body = inr jsonData ->
  In (EvDoTimeout k req t) (trace (snd (doRequest env c ctx method path body result))) ->
  t = Timeout (options c) /\
  ContentType req = match jsonData with
                    | [] => None
                    | _ :: _ => Some "application/json"
                    end /\
  match auth c with
  | None => Authorization req = None
  | Some _ => exists token, token <> "" /\ Authorization req = Some ("Bearer " ++ token)
  end.
Proof.
  intros Hjson Hin.
  destruct (doRequest_sends_stamped env c ctx method path body result jsonData
              k req t Hjson Hin) as (-> & Hst).
  split; [reflexivity |].
  destruct (stamp_preserves _ _ _ _ Hst) as (_ & _ & _ & Hct).
  apply stamp_result in Hst.
  split.
  - rewrite Hct. unfold newRequest. destruct jsonData; reflexivity.
  - unfold injectContext in Hst.
    destruct (auth c) as [[t0 | t0 | p dc | cc] | ];
      try (destruct Hst as (token & Hne & ->); exists token; split; [exact Hne | reflexivity]).
    subst req. unfold newRequest. destruct jsonData; reflexivity.
Qed.

Lemma sent_requests_are_well_formed_witness :
  ContentType (mkRequest "https://accounts.ana.st/api/anamericano/check" "POST"
                 sampleJSON (Some "application/json") (Some "Bearer test-token"))
  = Some "application/json".
Proof.
  apply (sent_requests_are_well_formed always404 tokenClient Background "POST"
           "/api/anamericano/check" (Some (CheckPayload sampleCheck))
           (Some IntoCheckResponse) sampleJSON 0 _ (30 * Second)).
  - reflexivity.
  - vm_compute. tauto.
Defined.

(** X12.  A client whose bearer or OAuth token is empty, and a client with
    the context strategy called with a context that carries no token or an
    empty one, never hands a request to the transport. *)
Theorem missing_token_never_reaches_the_transport env c ctx method path body result :
  auth c = Some (BearerTokenAuth "") \/
  auth c = Some (OAuthTokenAuth "") \/
  (exists stale, auth c = Some (ContextTokenAuth stale) /\
                 (ctxToken ctx = None \/ ctxToken ctx = Some "")) ->
  sends (trace (snd (doRequest env c ctx method path body result))) = 0.
Proof.
  intros Hauth.
  destruct (jsonOf env body) as [e0 | jsonData] eqn:Hjson.
  { destruct body as [b | ]; [| discriminate].
    now rewrite (doRequest_marshal_error _ _ _ _ _ _ _ _ Hjson). }
  apply sends_none. rewrite Forall_forall.
  intros [ | | | | | k req t] Hin; try reflexivity. exfalso.
  destruct (doRequest_sends_stamped env c ctx method path body result jsonData
              k req t Hjson Hin) as (_ & Hst).
  destruct Hauth as [Ha | [Ha | (stale & Ha & Htok)]]; rewrite Ha in Hst;
    try discriminate.
  simpl in Hst. unfold ContextTokenAuth_AuthenticateFastHTTP in Hst.
  destruct Htok as [Htok | Htok]; rewrite Htok in Hst; discriminate.
Qed.

Lemma missing_token_never_reaches_the_transport_witness :
  sends (trace (snd (doRequest always404 contextClient Background "GET"
                       "/api/anamericano/read/document/doc1" None
                       (Some IntoPermissions)))) = 0.
Proof.
  apply (missing_token_never_reaches_the_transport always404 contextClient Background).
  right. right. exists None. split; [reflexivity | left; reflexivity].
Defined.



(** X14.  A call whose every request fails in the transport (with no
    sleep cancelled) makes MaxRetries+1 attempts, sends a request on each,
    and returns "max retries exceeded" wrapping "request failed" wrapping
    the transport's last error. *)
Theorem transport_failures_exhaust_the_budget env c ctx method path body result jsonData :
  0 <= MaxRetries (options c) ->
  jsonOf env body = inr jsonData ->
  (forall k, 0 < k <= MaxRetries (options c) -> ctx_Done env k = None) ->
  (forall k, 0 <= k <= MaxRetries (options c) ->
     exists e,
       transportErrorAt env (injected c ctx) (baseURL ++ path) method jsonData k = Some e) ->
  let o := snd (doRequest env c ctx method path body result) in
  attempts (trace o) = MaxRetries (options c) + 1 /\
  sends (trace o) = MaxRetries (options c) + 1 /\
  exists e,
    transportErrorAt env (injected c ctx) (baseURL ++ path) method jsonData
      (MaxRetries (options c)) = Some e /\
    err o = Some (wrapError "max retries exceeded"
                    (Some (wrapError "request failed" (Some e)))).
Proof.
  intros Hmax Hjson Hdone Hfail o.
  destruct (doRequest_loop env c ctx method path body result jsonData Hjson)
    as (_ & Htr & Herr & _).
  fold o in Htr, Herr.
  set (c' := injected c ctx) in *. set (url := baseURL ++ path) in *.
  set (m := Z.to_nat (MaxRetries (options c))).
  replace (Z.to_nat (MaxRetries (options c) + 1)) with (S m + 0)%nat in Htr, Herr by lia.
  destruct (retryLoop_retries env c' url method jsonData result (S m) 0 None 0%nat)
    as (pre & l' & Hpre & Hperr & _ & Hpatt & Hpsnd & e1 & He1 & ->).
  { intros k Hk. destruct (Hfail k ltac:(lia)) as (e & He).
    split; [intros; apply Hdone; lia |]. split.
    - unfold transportErrorAt in He.
      destruct (stamp (auth c') k (newRequest url method jsonData)); [discriminate | eauto].
    - exists (wrapError "request failed" (Some e)).
      rewrite (attemptOnce_transport_error env c' url method jsonData result k e He).
      split; [reflexivity | exact I]. }
  cbv zeta in Hpre, Hperr. rewrite Hpre in Htr. rewrite Hperr in Herr.
  cbn [retryLoop trace err] in Htr, Herr. rewrite app_nil_r in Htr.
  destruct (marshalEvents_kinds body) as (Hm1 & _ & Hm3 & _).
  rewrite Htr, Herr, attempts_app, sends_app, (attempts_none _ Hm1),
    (sends_none _ Hm3), Hpatt, Hpsnd.
  split; [lia | split; [lia |]].
  replace (0 + Z.of_nat m) with (MaxRetries (options c)) in He1 by lia.
  destruct (Hfail (MaxRetries (options c)) ltac:(lia)) as (e & He).
  rewrite (attemptOnce_transport_error env c' url method jsonData result _ e He) in He1.
  injection He1 as <-. exists e. auto.
Qed.

Lemma transport_failures_exhaust_the_budget_witness :
  let o := snd (doRequest unreachable tokenClient Background "GET"
                  "/api/anamericano/read/document/doc1" None (Some IntoPermissions)) in
  attempts (trace o) = 4 /\ sends (trace o) = 4 /\
  exists e,
    transportErrorAt unreachable (injected tokenClient Background)
      (baseURL ++ "/api/anamericano/read/document/doc1") "GET" [] 3 = Some e /\
    err o = Some (wrapError "max retries exceeded"
                    (Some (wrapError "request failed" (Some e)))).
Proof.
  apply (transport_failures_exhaust_the_budget unreachable tokenClient Background "GET"
           "/api/anamericano/read/document/doc1" None (Some IntoPermissions) []).
  - vm_compute. discriminate.
  - reflexivity.
  - intros k _. reflexivity.
  - intros k _. eexists. reflexivity.
Defined.

(** X15.  With the provider strategy, the request of attempt k carries the
    token the provider returned when asked at attempt k with the context of
    this call, whatever context the authenticator held before: a token
    refreshed between attempts is picked up. *)
Theorem provider_token_is_fetched_per_attempt
    env c ctx method path body result jsonData provider stale k req t :
  auth c = Some (DynamicTokenAuth provider stale) ->
  jsonOf env body = inr jsonData ->
  In (EvDoTimeout k req t) (trace (snd (doRequest env c ctx method path body result))) ->
  exists token,
    GetToken provider k ctx = inr token /\ token <> "" /\
    Authorization req = Some ("Bearer " ++ token).
Proof.
  intros Hauth Hjson Hin.
  destruct (doRequest_sends_stamped env c ctx method path body result jsonData
              k req t Hjson Hin) as (_ & Hst).
  rewrite Hauth in Hst. simpl in Hst.
  unfold DynamicTokenAuth_AuthenticateFastHTTP in Hst.
  destruct (GetToken provider k ctx) as [e | token]; [discriminate |].
  destruct (String.eqb_spec token ""); [discriminate |].
  injection Hst as <-. exists token. auto.
Qed.

Lemma provider_token_is_fetched_per_attempt_witness :
  exists token,
    GetToken rotatingProvider 1 Background = inr token /\ token <> "" /\
    Authorization
      (mkRequest "https://accounts.ana.st/api/anamericano/read/document/doc1" "GET"
         [] None (Some "Bearer later"))
    = Some ("Bearer " ++ token).
Proof.
  apply (provider_token_is_fetched_per_attempt always429 dynamicClient Background "GET"
           "/api/anamericano/read/document/doc1" None (Some IntoPermissions) []
           rotatingProvider None 1 _ (30 * Second)).
  - reflexivity.
  - reflexivity.
  - vm_compute. tauto.
Defined.

(** X16.  With the context strategy, every request a call sends carries the
    token attached to the context of this call, whatever context the
    authenticator held before. *)
Theorem context_token_is_the_token_of_the_call
    env c ctx method path body result jsonData stale k req t :
  auth c = Some (ContextTokenAuth stale) ->
  jsonOf env body = inr jsonData ->
  In (EvDoTimeout k req t) (trace (snd (doRequest env c ctx method path body result))) ->
  exists token,
    ctxToken ctx = Some token /\ token <> "" /\
    Authorization req = Some ("Bearer " ++ token).
Proof.
  intros Hauth Hjson Hin.
  destruct (doRequest_sends_stamped env c ctx method path body result jsonData
              k req t Hjson Hin) as (_ & Hst).
  rewrite Hauth in Hst. simpl in Hst.
  unfold ContextTokenAuth_AuthenticateFastHTTP in Hst.
  destruct (ctxToken ctx) as [token | ]; [| discriminate].
  destruct (String.eqb_spec token ""); [discriminate |].
  injection Hst as <-. exists token. auto.
Qed.

Lemma context_token_is_the_token_of_the_call_witness :
  exists token,
    ctxToken (WithToken Background "user-token") = Some token /\ token <> "" /\
    Authorization
      (mkRequest "https://accounts.ana.st/api/anamericano/read/document/doc1" "GET"
         [] None (Some "Bearer user-token"))
    = Some ("Bearer " ++ token).
Proof.
  apply (context_token_is_the_token_of_the_call always404
           (SetAuth tokenClient (Some (ContextTokenAuth (Some (WithToken Background "old")))))
           (WithToken Background "user-token") "GET"
           "/api/anamericano/read/document/doc1" None (Some IntoPermissions) []
           (Some (WithToken Background "old")) 0 _ (30 * Second)).
  - reflexivity.
  - reflexivity.
  - vm_compute. tauto.
Defined.


(** ** Validation *)

(** Decides every test of a string against the empty string in the goal. *)
Ltac by_empty_fields :=
  repeat match goal with
         | |- context [(?s =? "")%string] => destruct (String.eqb_spec s "")
         end.

(** X18.  [Validate] of the three request structs accepts exactly the
    requests whose five required fields are all non-empty; the optional
    SubjectRelation of a write request plays no part. *)
Theorem Validate_accepts_exactly_complete_requests :
  (forall r,
     PermissionCheckRequest.Validate r = None <->
     PermissionCheckRequest.SubjectType r <> "" /\
     PermissionCheckRequest.SubjectID r <> "" /\
     PermissionCheckRequest.Relation r <> "" /\
     PermissionCheckRequest.ObjectNamespace r <> "" /\
     PermissionCheckRequest.ObjectID r <> "") /\
  (forall r,
     PermissionWriteRequest.Validate r = None <->
     PermissionWriteRequest.ObjectNamespace r <> "" /\
     PermissionWriteRequest.ObjectID r <> "" /\
     PermissionWriteRequest.Relation r <> "" /\
     PermissionWriteRequest.SubjectType r <> "" /\
     PermissionWriteRequest.SubjectID r <> "") /\
  (forall r,
     PermissionDeleteRequest.Validate r = None <->
     PermissionDeleteRequest.ObjectNamespace r <> "" /\
     PermissionDeleteRequest.ObjectID r <> "" /\
     PermissionDeleteRequest.Relation r <> "" /\
     PermissionDeleteRequest.SubjectType r <> "" /\
     PermissionDeleteRequest.SubjectID r <> "").
Proof.
  split; [| split]; intros r.
  - unfold PermissionCheckRequest.Validate. by_empty_fields;
      (split; [intros H; try discriminate; tauto | intros H; try reflexivity; tauto]).
  - unfold PermissionWriteRequest.Validate. by_empty_fields;
      (split; [intros H; try discriminate; tauto | intros H; try reflexivity; tauto]).
  - unfold PermissionDeleteRequest.Validate. by_empty_fields;
      (split; [intros H; try discriminate; tauto | intros H; try reflexivity; tauto]).
Qed.

(** X19.  In package request, [Validate] of each of the six request
    structs returns nil exactly when every required field is non-empty, and
    otherwise one of the five sentinel errors of the package. *)
Theorem request_Validate_returns_nil_or_a_sentinel :
  (forall r, match request.PermissionCheckRequest.Validate r with
             | None => request.PermissionCheckRequest.SubjectType r <> "" /\
                       request.PermissionCheckRequest.SubjectID r <> "" /\
                       request.PermissionCheckRequest.Relation r <> "" /\
                       request.PermissionCheckRequest.ObjectNamespace r <> "" /\
                       request.PermissionCheckRequest.ObjectID r <> ""
             | Some e => In e request.sentinels /\
                         (request.PermissionCheckRequest.SubjectType r = "" \/
                          request.PermissionCheckRequest.SubjectID r = "" \/
                          request.PermissionCheckRequest.Relation r = "" \/
                          request.PermissionCheckRequest.ObjectNamespace r = "" \/
                          request.PermissionCheckRequest.ObjectID r = "")
             end) /\
  (forall r, match request.PermissionWriteRequest.Validate r with
             | None => request.PermissionWriteRequest.ObjectNamespace r <> "" /\
                       request.PermissionWriteRequest.ObjectID r <> "" /\
                       request.PermissionWriteRequest.Relation r <> "" /\
                       request.PermissionWriteRequest.SubjectType r <> "" /\
                       request.PermissionWriteRequest.SubjectID r <> ""
             | Some e => In e request.sentinels /\
                         (request.PermissionWriteRequest.ObjectNamespace r = "" \/
                          request.PermissionWriteRequest.ObjectID r = "" \/
                          request.PermissionWriteRequest.Relation r = "" \/
                          request.PermissionWriteRequest.SubjectType r = "" \/
                          request.PermissionWriteRequest.SubjectID r = "")
             end) /\
  (forall r, match request.PermissionDeleteRequest.Validate r with
             | None => request.PermissionDeleteRequest.ObjectNamespace r <> "" /\
                       request.PermissionDeleteRequest.ObjectID r <> "" /\
                       request.PermissionDeleteRequest.Relation r <> "" /\
                       request.PermissionDeleteRequest.SubjectType r <> "" /\
                       request.PermissionDeleteRequest.SubjectID r <> ""
             | Some e => In e request.sentinels /\
                         (request.PermissionDeleteRequest.ObjectNamespace r = "" \/
                          request.PermissionDeleteRequest.ObjectID r = "" \/
                          request.PermissionDeleteRequest.Relation r = "" \/
                          request.PermissionDeleteRequest.SubjectType r = "" \/
                          request.PermissionDeleteRequest.SubjectID r = "")
             end) /\
  (forall r, match request.PermissionReadRequest.Validate r with
             | None => request.PermissionReadRequest.ObjectNamespace r <> "" /\
                       request.PermissionReadRequest.ObjectID r <> ""
             | Some e => In e request.sentinels /\
                         (request.PermissionReadRequest.ObjectNamespace r = "" \/
                          request.PermissionReadRequest.ObjectID r = "")
             end) /\
  (forall r, match request.PermissionExpendRequest.Validate r with
             | None => request.PermissionExpendRequest.ObjectNamespace r <> "" /\
                       request.PermissionExpendRequest.ObjectID r <> "" /\
                       request.PermissionExpendRequest.Relation r <> ""
             | Some e => In e request.sentinels /\
                         (request.PermissionExpendRequest.ObjectNamespace r = "" \/
                          request.PermissionExpendRequest.ObjectID r = "" \/
                          request.PermissionExpendRequest.Relation r = "")
             end) /\
  (forall r, match request.ListObjectsRequest.Validate r with
             | None => request.ListObjectsRequest.SubjectType r <> "" /\
                       request.ListObjectsRequest.SubjectID r <> "" /\
                       request.ListObjectsRequest.Relation r <> "" /\
                       request.ListObjectsRequest.ObjectNamespace r <> ""
             | Some e => In e request.sentinels /\
                         (request.ListObjectsRequest.SubjectType r = "" \/
                          request.ListObjectsRequest.SubjectID r = "" \/
                          request.ListObjectsRequest.Relation r = "" \/
                          request.ListObjectsRequest.ObjectNamespace r = "")
             end).
Proof.
  unfold request.sentinels.
  split; [| split; [| split; [| split; [| split]]]]; intros r.
  - unfold request.PermissionCheckRequest.Validate. by_empty_fields; simpl; tauto.
  - unfold request.PermissionWriteRequest.Validate. by_empty_fields; simpl; tauto.
  - unfold request.PermissionDeleteRequest.Validate. by_empty_fields; simpl; tauto.
  - unfold request.PermissionReadRequest.Validate. by_empty_fields; simpl; tauto.
  - unfold request.PermissionExpendRequest.Validate. by_empty_fields; simpl; tauto.
  - unfold request.ListObjectsRequest.Validate. by_empty_fields; simpl; tauto.
Qed.

(** X20.  The validators of package request and those of the root package
    agree on requests with the same fields: they accept the same requests
    and reject the others with an error of the same text. *)
Theorem request_and_root_validators_agree :
  (forall subjectType subjectID relation objectNamespace objectID,
     request.PermissionCheckRequest.Validate
       (request.PermissionCheckRequest.mk subjectType subjectID relation
          objectNamespace objectID)
     = PermissionCheckRequest.Validate
         (PermissionCheckRequest.mk subjectType subjectID relation
            objectNamespace objectID)) /\
  (forall objectNamespace objectID relation subjectType subjectID subjectRelation,
     request.PermissionWriteRequest.Validate
       (request.PermissionWriteRequest.mk objectNamespace objectID relation
          subjectType subjectID subjectRelation)
     = PermissionWriteRequest.Validate
         (PermissionWriteRequest.mk objectNamespace objectID relation
            subjectType subjectID subjectRelation)) /\
  (forall objectNamespace objectID relation subjectType subjectID,
     request.PermissionDeleteRequest.Validate
       (request.PermissionDeleteRequest.mk objectNamespace objectID relation
          subjectType subjectID)
     = PermissionDeleteRequest.Validate
         (PermissionDeleteRequest.mk objectNamespace objectID relation
            subjectType subjectID)).
Proof.
  split; [| split]; intros; reflexivity.
Qed.

(** ** Permission tuples *)

Lemma string_app_assoc (s1 s2 s3 : string) :
  ((s1 ++ s2) ++ s3 = s1 ++ (s2 ++ s3))%string.
Proof.
  induction s1 as [| ch s1 IH]; simpl; [reflexivity | now rewrite IH].
Qed.

Lemma string_app_length (s1 s2 : string) :
  String.length (s1 ++ s2) = (String.length s1 + String.length s2)%nat.
Proof.
  induction s1 as [| ch s1 IH]; simpl; [reflexivity | now rewrite IH].
Qed.

(** X21.  The text of a permission with a subject relation is the text of
    the same permission without it, followed by "#" and the relation; the
    text is as long as its six or seven parts and their separators, so it
    is never empty. *)
Theorem Permission_String_appends_the_subject_relation p subjectRelation :
  let without :=
    Permission.mk (Permission.ID p) (Permission.ObjectNamespace p)
      (Permission.ObjectID p) (Permission.Relation p) (Permission.SubjectType p)
      (Permission.SubjectID p) None (Permission.CreatedAt p) in
  let with_ :=
    Permission.mk (Permission.ID p) (Permission.ObjectNamespace p)
      (Permission.ObjectID p) (Permission.Relation p) (Permission.SubjectType p)
      (Permission.SubjectID p) (Some subjectRelation) (Permission.CreatedAt p) in
  Permission.String with_ = (Permission.String without ++ "#" ++ subjectRelation)%string /\
  String.length (Permission.String without)
    = (String.length (Permission.ObjectNamespace p) + String.length (Permission.ObjectID p)
       + String.length (Permission.Relation p) + String.length (Permission.SubjectType p)
       + String.length (Permission.SubjectID p) + 4)%nat.
Proof.
  unfold Permission.String. cbn [Permission.SubjectRelation Permission.ObjectNamespace
    Permission.ObjectID Permission.Relation Permission.SubjectType Permission.SubjectID].
  split.
  - rewrite !string_app_assoc. reflexivity.
  - rewrite !string_app_length. simpl. lia.
Qed.

(** ** More of the facade *)

Lemma doRequest_no_sink env c ctx method path body :
  value (snd (doRequest env c ctx method path body None)) = None.
Proof.
  destruct (jsonOf env body) as [e0 | jsonData] eqn:Hjson.
  { destruct body as [b | ]; [| discriminate].
    now rewrite (doRequest_marshal_error _ _ _ _ _ _ _ _ Hjson). }
  destruct (doRequest_loop env c ctx method path body None jsonData Hjson)
    as (_ & _ & _ & Hval).
  rewrite Hval. now apply retryLoop_no_sink.
Qed.

Lemma doRequest_body env c ctx method path body result jsonData k req t :
  jsonOf env body = inr jsonData ->
  In (EvDoTimeout k req t) (trace (snd (doRequest env c ctx method path body result))) ->
  Body req = jsonData /\
  ContentType req = match jsonData with
                    | [] => None
                    | _ :: _ => Some "application/json"
                    end.
Proof.
  intros Hjson Hin.
  destruct (doRequest_sends_stamped env c ctx method path body result jsonData
              k req t Hjson Hin) as (_ & Hst).
  destruct (stamp_preserves _ _ _ _ Hst) as (_ & _ & Hb & Hct).
  rewrite Hb, Hct. unfold newRequest. destruct jsonData; auto.
Qed.

Lemma doRequest_without_body env c ctx method path result :
  marshals (trace (snd (doRequest env c ctx method path None result))) = 0.
Proof.
  destruct (doRequest_loop env c ctx method path None result [] eq_refl)
    as (_ & Htr & _).
  rewrite Htr. cbn [marshalEvents app]. unfold marshals.
  rewrite filter_none; [reflexivity |].
  eapply Forall_impl; [| apply retryLoop_events].
  intros [ | | | | | ]; simpl; tauto.
Qed.

(** X22.  CheckPermission and WritePermission return a response exactly
    when they return no error: never both, never neither. *)
Theorem response_exactly_when_no_error env c ctx :
  (forall req,
     let o := snd (CheckPermission env c ctx req) in
     err o = None <-> value o <> None) /\
  (forall req,
     let o := snd (WritePermission env c ctx req) in
     err o = None <-> value o <> None).
Proof.
  assert (H : forall zero r,
            err (snd (orNil zero r)) = None <-> value (snd (orNil zero r)) <> None).
  { intros zero [c0 o]. unfold orNil. destruct (err o); simpl;
      split; intros; congruence. }
  split; intros [r | ]; cbv zeta.
  - unfold CheckPermission.
    destruct (PermissionCheckRequest.Validate r); [| apply H].
    simpl. split; intros; congruence.
  - simpl. split; intros; congruence.
  - unfold WritePermission.
    destruct (PermissionWriteRequest.Validate r); [| apply H].
    simpl. split; intros; congruence.
  - simpl. split; intros; congruence.
Qed.

(** X23.  DeletePermission never yields a value.  ReadPermissions,
    ExpandPermissions and ListObjects never call [json.Marshal], and every
    request they send has an empty body and no Content-Type. *)
Theorem operations_without_payload env c ctx :
  (forall req, value (snd (DeletePermission env c ctx req)) = None) /\
  (forall namespace objectID,
     let o := snd (ReadPermissions env c ctx namespace objectID) in
     marshals (trace o) = 0 /\
     forall k req t, In (EvDoTimeout k req t) (trace o) ->
                     Body req = [] /\ ContentType req = None) /\
  (forall namespace objectID relation,
     let o := snd (ExpandPermissions env c ctx namespace objectID relation) in
     marshals (trace o) = 0 /\
     forall k req t, In (EvDoTimeout k req t) (trace o) ->
                     Body req = [] /\ ContentType req = None) /\
  (forall subjectType subjectID relation namespace,
     let o := snd (ListObjects env c ctx subjectType subjectID relation namespace) in
     marshals (trace o) = 0 /\
     forall k req t, In (EvDoTimeout k req t) (trace o) ->
                     Body req = [] /\ ContentType req = None).
Proof.
  assert (Hget : forall method path result,
            let o := snd (doRequest env c ctx method path None result) in
            marshals (trace o) = 0 /\
            forall k req t, In (EvDoTimeout k req t) (trace o) ->
                            Body req = [] /\ ContentType req = None).
  { intros method path result o. split; [apply doRequest_without_body |].
    intros k req t Hin.
    apply (doRequest_body env c ctx method path None result [] k req t eq_refl Hin). }
  assert (Hrej : forall e,
            let o := snd (reject c e) in
            marshals (trace o) = 0 /\
            forall k req t, In (EvDoTimeout k req t) (trace o) ->
                            Body req = [] /\ ContentType req = None).
  { intros e. simpl. split; [reflexivity | intros k req t []]. }
  split; [| split; [| split]].
  - intros [r | ]; unfold DeletePermission; [| reflexivity].
    destruct (PermissionDeleteRequest.Validate r); [reflexivity |].
    apply doRequest_no_sink.
  - intros ns oid. unfold ReadPermissions.
    by_empty_fields; first [apply Hrej | apply Hget].
  - intros ns oid rel. unfold ExpandPermissions.
    by_empty_fields; first [apply Hrej | apply Hget].
  - intros st sid rel ns. unfold ListObjects.
    by_empty_fields; first [apply Hrej | apply Hget].
Qed.

(** X24.  What CheckPermission, WritePermission and DeletePermission put on
    the wire for a request that passes validation is that request: the
    first thing they do is serialize it, and every request they send has
    the serialized bytes as its body. *)
Theorem validated_request_is_the_body env c ctx :
  (forall r, PermissionCheckRequest.Validate r = None ->
     let o := snd (CheckPermission env c ctx (Some r)) in
     (exists tl, trace o = EvMarshal (CheckPayload r) :: tl) /\
     forall k req t, In (EvDoTimeout k req t) (trace o) ->
                     json_Marshal env (CheckPayload r) = inr (Body req)) /\
  (forall r, PermissionWriteRequest.Validate r = None ->
     let o := snd (WritePermission env c ctx (Some r)) in
     (exists tl, trace o = EvMarshal (WritePayload r) :: tl) /\
     forall k req t, In (EvDoTimeout k req t) (trace o) ->
                     json_Marshal env (WritePayload r) = inr (Body req)) /\
  (forall r, PermissionDeleteRequest.Validate r = None ->
     let o := snd (DeletePermission env c ctx (Some r)) in
     (exists tl, trace o = EvMarshal (DeletePayload r) :: tl) /\
     forall k req t, In (EvDoTimeout k req t) (trace o) ->
                     json_Marshal env (DeletePayload r) = inr (Body req)).
Proof.
  assert (H : forall method path b result,
            let o := snd (doRequest env c ctx method path (Some b) result) in
            (exists tl, trace o = EvMarshal b :: tl) /\
            forall k req t, In (EvDoTimeout k req t) (trace o) ->
                            json_Marshal env b = inr (Body req)).
  { intros method path b result o.
    destruct (json_Marshal env b) as [e0 | jsonData] eqn:Hjson.
    - subst o. rewrite (doRequest_marshal_error _ _ _ _ _ _ _ _ Hjson). simpl.
      split; [eauto |]. intros k req t [Hin | []]. discriminate.
    - destruct (doRequest_loop env c ctx method path (Some b) result jsonData Hjson)
        as (_ & Htr & _).
      fold o in Htr. split; [rewrite Htr; simpl; eauto |].
      intros k req t Hin.
      destruct (doRequest_body env c ctx method path (Some b) result jsonData
                  k req t Hjson Hin) as (-> & _).
      reflexivity. }
  split; [| split]; intros r Hv; cbv zeta.
  - unfold CheckPermission. rewrite Hv. rewrite orNil_trace. apply H.
  - unfold WritePermission. rewrite Hv. rewrite orNil_trace. apply H.
  - unfold DeletePermission. rewrite Hv. apply H.
Qed.

Lemma validated_request_is_the_body_witness :
  let o := snd (CheckPermission always404 tokenClient Background (Some sampleCheck)) in
  (exists tl, trace o = EvMarshal (CheckPayload sampleCheck) :: tl) /\
  forall k req t, In (EvDoTimeout k req t) (trace o) ->
                  json_Marshal always404 (CheckPayload sampleCheck) = inr (Body req).
Proof.
  destruct (validated_request_is_the_body always404 tokenClient Background)
    as (Hcheck & _).
  apply (Hcheck sampleCheck). reflexivity.
Defined.

(** ** The net/http client *)

Lemma http_attempts_app l1 l2 :
  client.attempts (l1 ++ l2) = client.attempts l1 + client.attempts l2.
Proof.
  unfold client.attempts. rewrite filter_app, length_app. lia.
Qed.

Lemma http_sends_app l1 l2 :
  client.sends (l1 ++ l2) = client.sends l1 + client.sends l2.
Proof.
  unfold client.sends. rewrite filter_app, length_app. lia.
Qed.

Lemma http_marshals_app l1 l2 :
  client.marshals (l1 ++ l2) = client.marshals l1 + client.marshals l2.
Proof.
  unfold client.marshals. rewrite filter_app, length_app. lia.
Qed.

Lemma http_log_silent c level msg :
  client.attempts (client.log c level msg) = 0 /\
  client.sends (client.log c level msg) = 0 /\
  client.marshals (client.log c level msg) = 0.
Proof.
  unfold client.log. destruct (client.logger (client.options c)); auto.
Qed.

Lemma http_stamp_events c k :
  let evs := match client.auth c with
             | None => []
             | Some _ => [client.EvAuthenticate k]
             end in
  client.attempts evs = 0 /\ client.sends evs = 0 /\ client.marshals evs = 0.
Proof.
  destruct (client.auth c); auto.
Qed.

(** The first attempt of a call, up to the response: the request is
    created, stamped and sent once. *)
Lemma http_first_attempt env c url method body result n reqBody lastErr req resp bodyBytes :
  client.NewRequestWithContext env method url = None ->
  client.stamp c (client.newRequest url method body reqBody) = inr req ->
  client.Do env 0 req = inr resp ->
  client.ReadAll resp = inr bodyBytes ->
  exists evs rest,
    client.attempts evs = 1 /\ client.sends evs = 1 /\
    client.retryLoop env c url method body result (S n) 0 reqBody lastErr
      = client.before evs rest /\
    rest =
      if (200 <=? client.StatusCode resp) && (client.StatusCode resp <? 300) then
        match result, bodyBytes with
        | Some sink, _ :: _ =>
            match client.json_Unmarshal env sink bodyBytes with
            | inl e =>
                client.stop [] (wrapError "failed to unmarshal response" (Some e))
            | inr v => client.mkOutcome [] None (Some v)
            end
        | _, _ => client.mkOutcome [] None None
        end
      else
        match client.json_Unmarshal_APIError env bodyBytes with
        | None => client.stop [] (httpError (client.StatusCode resp) bodyBytes)
        | Some apiErr =>
            if isClientError (client.StatusCode resp) then
              client.stop (client.log c LogError "client error") (apiError apiErr)
            else
              client.before (client.log c LogError "server error, will retry")
                (client.retryLoop env c url method body result n 1 reqBody
                   (Some (apiError apiErr)))
        end.
Proof.
  intros Hnew Hst Hdo Hread.
  unfold client.stamp, client.newRequest in Hst.
  eexists (client.EvNewRequest 0
           :: match client.auth c with
              | None => []
              | Some _ => [client.EvAuthenticate 0]
              end ++ [client.EvDo 0 req])%list, _.
  split; [| split; [| split; [| reflexivity]]].
  - destruct (client.auth c); reflexivity.
  - destruct (client.auth c); reflexivity.
  - cbn [client.retryLoop]. change (0 <? 0) with false. cbv iota. rewrite Hnew.
    destruct (client.auth c) as [a | ]; destruct body as [b | ];
      first [rewrite Hst | injection Hst as <-]; cbv iota beta;
      rewrite Hdo, Hread; reflexivity.
Qed.

Lemma http_doRequest_loop env c method path body result jsonData :
  client.jsonOf env body = inr jsonData ->
  client.doRequest env c method path body result
  = client.before (client.marshalEvents body)
      (client.retryLoop env c (baseURL ++ path) method body result
         (Z.to_nat (client.MaxRetries (client.options c) + 1)) 0 jsonData None).
Proof.
  unfold client.doRequest, client.jsonOf. intros H. destruct body as [b | ].
  - rewrite H. reflexivity.
  - injection H as <-. unfold client.before. cbn [client.marshalEvents app].
    destruct (client.retryLoop env c (baseURL ++ path) method None result
                (Z.to_nat (client.MaxRetries (client.options c) + 1)) 0 [] None).
    reflexivity.
Qed.

Lemma http_marshalEvents_silent body :
  client.attempts (client.marshalEvents body) = 0 /\
  client.sends (client.marshalEvents body) = 0.
Proof.
  destruct body; auto.
Qed.

(** X25.  In the net/http client a stamp that fails ends the call at
    once: the authentication error is returned as such, after one attempt
    and without a request sent. *)
Theorem http_authentication_failure_is_fatal env c method path body result jsonData e :
  0 <= client.MaxRetries (client.options c) ->
  client.jsonOf env body = inr jsonData ->
  client.NewRequestWithContext env method (baseURL ++ path) = None ->
  client.stamp c (client.newRequest (baseURL ++ path) method body jsonData) = inl e ->
  let o := client.doRequest env c method path body result in
  client.err o = Some (wrapError "authentication failed" (Some e)) /\
  client.attempts (client.trace o) = 1 /\
  client.sends (client.trace o) = 0.
Proof.
  intros Hmax Hjson Hnew Hst o. subst o.
  rewrite (http_doRequest_loop env c method path body result jsonData Hjson).
  assert (Hn : exists n, Z.to_nat (client.MaxRetries (client.options c) + 1) = S n)
    by (exists (Z.to_nat (client.MaxRetries (client.options c))); lia).
  destruct Hn as (n & ->).
  destruct (http_marshalEvents_silent body) as (Hm1 & Hm2).
  unfold client.before. cbn [client.trace client.err].
  rewrite http_attempts_app, http_sends_app, Hm1, Hm2.
  cbn [client.retryLoop]. change (0 <? 0) with false. cbv iota. rewrite Hnew.
  unfold client.stamp, client.newRequest in Hst.
  destruct (client.auth c) as [a | ]; [| destruct body; discriminate].
  destruct body as [b | ]; rewrite Hst; auto.
Qed.

Lemma http_authentication_failure_is_fatal_witness :
  let o := client.doRequest (client.fixedServer 404 (Some notFound))
             (client.NewClient (Some (client.mkBearerTokenAuth "")) None)
             "POST" "/api/anamericano/check"
             (Some (client.CheckPayload client.sampleCheck)) (Some IntoCheckResponse) in
  client.err o = Some (wrapError "authentication failed"
                         (Some (errorString "bearer token is empty"))) /\
  client.attempts (client.trace o) = 1 /\
  client.sends (client.trace o) = 0.
Proof.
  apply (http_authentication_failure_is_fatal (client.fixedServer 404 (Some notFound))
           (client.NewClient (Some (client.mkBearerTokenAuth "")) None)
           "POST" "/api/anamericano/check"
           (Some (client.CheckPayload client.sampleCheck)) (Some IntoCheckResponse)
           sampleJSON).
  - vm_compute. discriminate.
  - reflexivity.
  - reflexivity.
  - reflexivity.
Defined.

(** The first response of a call of the net/http client, when the body
    serializes, the request is created and stamped, the transport answers
    and the body of the answer is read. *)
Lemma http_first_response env c method path body result jsonData req resp bodyBytes :
  0 <= client.MaxRetries (client.options c) ->
  client.jsonOf env body = inr jsonData ->
  client.NewRequestWithContext env method (baseURL ++ path) = None ->
  client.stamp c (client.newRequest (baseURL ++ path) method body jsonData) = inr req ->
  client.Do env 0 req = inr resp ->
  client.ReadAll resp = inr bodyBytes ->
  exists evs n,
    client.attempts evs = 1 /\ client.sends evs = 1 /\
    client.doRequest env c method path body result
    = client.before evs
        (if (200 <=? client.StatusCode resp) && (client.StatusCode resp <? 300) then
           match result, bodyBytes with
           | Some sink, _ :: _ =>
               match client.json_Unmarshal env sink bodyBytes with
               | inl e =>
                   client.stop [] (wrapError "failed to unmarshal response" (Some e))
               | inr v => client.mkOutcome [] None (Some v)
               end
           | _, _ => client.mkOutcome [] None None
           end
         else
           match client.json_Unmarshal_APIError env bodyBytes with
           | None => client.stop [] (httpError (client.StatusCode resp) bodyBytes)
           | Some apiErr =>
               if isClientError (client.StatusCode resp) then
                 client.stop (client.log c LogError "client error") (apiError apiErr)
               else
                 client.before (client.log c LogError "server error, will retry")
                   (client.retryLoop env c (baseURL ++ path) method body result n 1
                      jsonData (Some (apiError apiErr)))
           end).
Proof.
  intros Hmax Hjson Hnew Hst Hdo Hread.
  rewrite (http_doRequest_loop env c method path body result jsonData Hjson).
  assert (Hn : exists n, Z.to_nat (client.MaxRetries (client.options c) + 1) = S n)
    by (exists (Z.to_nat (client.MaxRetries (client.options c))); lia).
  destruct Hn as (n & ->).
  destruct (http_first_attempt env c (baseURL ++ path) method body result n jsonData
              None req resp bodyBytes Hnew Hst Hdo Hread)
    as (evs & rest & Ha & Hs & -> & ->).
  destruct (http_marshalEvents_silent body) as (Hm1 & Hm2).
  exists (client.marshalEvents body ++ evs)%list, n.
  rewrite http_attempts_app, http_sends_app, Hm1, Hm2, Ha, Hs.
  split; [reflexivity | split; [reflexivity |]].
  unfold client.before at 1 2 3. cbn [client.trace client.err client.value].
  now rewrite app_assoc.
Qed.

(** X26.  In the net/http client a 2xx response whose non-empty body does
    not decode into the requested sink ends the call at once: the decoding
    error is returned as such, after one attempt. *)
Theorem http_undecodable_success_is_fatal
    env c method path body sink jsonData req resp b bs e :
  0 <= client.MaxRetries (client.options c) ->
  client.jsonOf env body = inr jsonData ->
  client.NewRequestWithContext env method (baseURL ++ path) = None ->
  client.stamp c (client.newRequest (baseURL ++ path) method body jsonData) = inr req ->
  client.Do env 0 req = inr resp ->
  client.ReadAll resp = inr (b :: bs) ->
  200 <= client.StatusCode resp < 300 ->
  client.json_Unmarshal env sink (b :: bs) = inl e ->
  let o := client.doRequest env c method path body (Some sink) in
  client.err o = Some (wrapError "failed to unmarshal response" (Some e)) /\
  client.attempts (client.trace o) = 1 /\
  client.sends (client.trace o) = 1.
Proof.
  intros Hmax Hjson Hnew Hst Hdo Hread H2xx Hdec o. subst o.
  destruct (http_first_response env c method path body (Some sink) jsonData req resp
              (b :: bs) Hmax Hjson Hnew Hst Hdo Hread) as (evs & n & Ha & Hs & ->).
  assert (H2 : (200 <=? client.StatusCode resp) && (client.StatusCode resp <? 300) = true).
  { apply andb_true_iff. split; [apply Z.leb_le | apply Z.ltb_lt]; lia. }
  rewrite H2, Hdec. unfold client.before, client.stop. cbn [client.trace client.err].
  rewrite app_nil_r. auto.
Qed.

Lemma http_undecodable_success_is_fatal_witness :
  let o := client.doRequest (client.fixedServer 200 None)
             (client.NewClient (Some (client.mkBearerTokenAuth "test-token")) None)
             "GET" "/api/anamericano/read/document/doc1" None (Some IntoPermissions) in
  client.err o = Some (wrapError "failed to unmarshal response"
                         (Some (errorString "unexpected end of JSON input"))) /\
  client.attempts (client.trace o) = 1 /\
  client.sends (client.trace o) = 1.
Proof.
  eapply (http_undecodable_success_is_fatal (client.fixedServer 200 None)
            (client.NewClient (Some (client.mkBearerTokenAuth "test-token")) None)
            "GET" "/api/anamericano/read/document/doc1" None IntoPermissions []).
  - vm_compute. discriminate.
  - reflexivity.
  - reflexivity.
  - reflexivity.
  - reflexivity.
  - reflexivity.
  - simpl. lia.
  - reflexivity.
Defined.

(** X27.  In the net/http client a non-2xx response whose body does not
    decode as an [APIError] ends the call at once: the generic error with
    the status and the body text is returned as such, after one attempt. *)
Theorem http_malformed_error_body_is_fatal
    env c method path body result jsonData req resp bodyBytes :
  0 <= client.MaxRetries (client.options c) ->
  client.jsonOf env body = inr jsonData ->
  client.NewRequestWithContext env method (baseURL ++ path) = None ->
  client.stamp c (client.newRequest (baseURL ++ path) method body jsonData) = inr req ->
  client.Do env 0 req = inr resp ->
  client.ReadAll resp = inr bodyBytes ->
  ~ (200 <= client.StatusCode resp < 300) ->
  client.json_Unmarshal_APIError env bodyBytes = None ->
  let o := client.doRequest env c method path body result in
  client.err o = Some (httpError (client.StatusCode resp) bodyBytes) /\
  client.attempts (client.trace o) = 1 /\
  client.sends (client.trace o) = 1.
Proof.
  intros Hmax Hjson Hnew Hst Hdo Hread H2xx Hdec o. subst o.
  destruct (http_first_response env c method path body result jsonData req resp
              bodyBytes Hmax Hjson Hnew Hst Hdo Hread) as (evs & n & Ha & Hs & ->).
  assert (H2 : (200 <=? client.StatusCode resp) && (client.StatusCode resp <? 300) = false).
  { destruct (200 <=? client.StatusCode resp) eqn:E1; [| reflexivity].
    destruct (client.StatusCode resp <? 300) eqn:E2; [| reflexivity].
    apply Z.leb_le in E1. apply Z.ltb_lt in E2. lia. }
  rewrite H2, Hdec. unfold client.before, client.stop. cbn [client.trace client.err].
  rewrite app_nil_r. auto.
Qed.

Lemma http_malformed_error_body_is_fatal_witness :
  let o := client.doRequest (client.fixedServer 502 None)
             (client.NewClient (Some (client.mkBearerTokenAuth "test-token")) None)
             "GET" "/api/anamericano/read/document/doc1" None (Some IntoPermissions) in
  client.err o = Some (httpError 502 sampleJSON) /\
  client.attempts (client.trace o) = 1 /\
  client.sends (client.trace o) = 1.
Proof.
  eapply (http_malformed_error_body_is_fatal (client.fixedServer 502 None)
            (client.NewClient (Some (client.mkBearerTokenAuth "test-token")) None)
            "GET" "/api/anamericano/read/document/doc1" None (Some IntoPermissions) []
            _ (client.mkResponse 502 (inr sampleJSON)) sampleJSON).
  - vm_compute. discriminate.
  - reflexivity.
  - reflexivity.
  - reflexivity.
  - reflexivity.
  - reflexivity.
  - simpl. lia.
  - reflexivity.
Defined.

(** X28.  The net/http client decides on the status of the response, not
    on the status written in its body: a response with a status in
    [400,500) other than 429 and a decodable error body ends the call at
    once with the decoded [APIError], whatever status that error carries. *)
Theorem http_client_error_is_decided_on_the_response_status
    env c method path body result jsonData req resp bodyBytes apiErr :
  0 <= client.MaxRetries (client.options c) ->
  client.jsonOf env body = inr jsonData ->
  client.NewRequestWithContext env method (baseURL ++ path) = None ->
  client.stamp c (client.newRequest (baseURL ++ path) method body jsonData) = inr req ->
  client.Do env 0 req = inr resp ->
  client.ReadAll resp = inr bodyBytes ->
  400 <= client.StatusCode resp < 500 ->
  client.StatusCode resp <> 429 ->
  client.json_Unmarshal_APIError env bodyBytes = Some apiErr ->
  let o := client.doRequest env c method path body result in
  client.err o = Some (apiError apiErr) /\
  client.attempts (client.trace o) = 1 /\
  client.sends (client.trace o) = 1.
Proof.
  intros Hmax Hjson Hnew Hst Hdo Hread Hrange H429 Hdec o. subst o.
  destruct (http_first_response env c method path body result jsonData req resp
              bodyBytes Hmax Hjson Hnew Hst Hdo Hread) as (evs & n & Ha & Hs & ->).
  assert (H2 : (200 <=? client.StatusCode resp) && (client.StatusCode resp <? 300) = false).
  { apply andb_false_iff. right. apply Z.ltb_ge. lia. }
  assert (Hce : isClientError (client.StatusCode resp) = true).
  { unfold isClientError. apply andb_true_iff. split; [apply andb_true_iff; split |].
    - apply Z.leb_le. lia.
    - apply Z.ltb_lt. lia.
    - apply negb_true_iff. apply Z.eqb_neq. exact H429. }
  rewrite H2, Hdec, Hce. unfold client.before, client.stop.
  cbn [client.trace client.err].
  destruct (http_log_silent c LogError "client error") as (Hl1 & Hl2 & _).
  rewrite http_attempts_app, http_sends_app, Ha, Hs, Hl1, Hl2. auto.
Qed.

Lemma http_client_error_is_decided_on_the_response_status_witness :
  let o := client.doRequest (client.fixedServer 404 (Some internalError))
             (client.NewClient (Some (client.mkBearerTokenAuth "test-token")) None)
             "GET" "/api/anamericano/read/document/doc1" None (Some IntoPermissions) in
  client.err o = Some (apiError internalError) /\
  client.attempts (client.trace o) = 1 /\
  client.sends (client.trace o) = 1.
Proof.
  eapply (http_client_error_is_decided_on_the_response_status
            (client.fixedServer 404 (Some internalError))
            (client.NewClient (Some (client.mkBearerTokenAuth "test-token")) None)
            "GET" "/api/anamericano/read/document/doc1" None (Some IntoPermissions) []
            _ (client.mkResponse 404 (inr sampleJSON)) sampleJSON).
  - vm_compute. discriminate.
  - reflexivity.
  - reflexivity.
  - reflexivity.
  - reflexivity.
  - reflexivity.
  - simpl. lia.
  - simpl. lia.
  - reflexivity.
Defined.

(** Splits a membership in a list built with [::] and [++] into its
    cases. *)
Ltac split_in H :=
  repeat match type of H with
         | In _ (_ ++ _)%list => apply in_app_or in H; destruct H as [H | H]
         | In _ (_ :: _) => destruct H as [H | H]
         | In _ [] => destruct H
         end.

(** Closes the two goals about an iteration that returns before it sends
    anything. *)
Ltac stopped :=
  unfold client.before, client.stop; cbn [client.trace];
  split; [reflexivity | intros ? ? Hin; split_in Hin; discriminate].

Section HttpRetries.
Variable env : client.Env.
Variable c : client.Client.
Variables url method : string.
Variable b : client.Payload.
Variable result : option Sink.

Let loop := client.retryLoop env c url method (Some b) result.

(** From the first retry on, every iteration that is not cancelled
    serializes the body again, and what it sends is what that call of
    [json.Marshal] returned. *)
Lemma http_retries_marshal_again n : forall a reqBody lastErr,
  0 < a ->
  client.marshals (client.trace (loop n a reqBody lastErr))
    = client.attempts (client.trace (loop n a reqBody lastErr)) /\
  forall k req,
    In (client.EvDo k req) (client.trace (loop n a reqBody lastErr)) ->
    a <= k /\ Body req = client.remarshalled env (Some b) k.
Proof.
  unfold loop. induction n as [| n IH]; intros a reqBody lastErr Ha.
  - split; [reflexivity | intros k req []].
  - assert (Hpos : (0 <? a) = true) by (apply Z.ltb_lt; lia).
    cbn [client.retryLoop]. rewrite Hpos.
    unfold client.log, client.Authenticate, client.remarshalled.
    destruct (client.logger (client.options c));
      destruct (client.ctx_Done env a);
      try solve [stopped];
      destruct (client.json_Marshal env a b) as [me | jsonData] eqn:Hmar;
      destruct (client.NewRequestWithContext env method url);
      try solve [stopped];
      destruct (client.auth c) as [tok | ];
      try destruct (client.Token tok =? "")%string;
      try solve [stopped];
      cbv iota beta;
      match goal with
      | |- context [client.Do env a ?r] => destruct (client.Do env a r) as [de | resp]
      end;
      try destruct (client.ReadAll resp) as [re | bodyBytes];
      try destruct ((200 <=? client.StatusCode resp) && (client.StatusCode resp <? 300));
      try destruct result as [sink | ];
      try destruct bodyBytes as [| b0 bs];
      try match goal with
          | |- context [client.json_Unmarshal env ?s ?l] =>
              destruct (client.json_Unmarshal env s l)
          end;
      try match goal with
          | |- context [client.json_Unmarshal_APIError env ?l] =>
              destruct (client.json_Unmarshal_APIError env l)
          end;
      try destruct (isClientError (client.StatusCode resp));
      unfold client.before, client.stop; cbn [client.trace];
      try match goal with
          | |- context [client.retryLoop env c url method (Some b) _ n (a + 1) ?rb ?le] =>
              destruct (IH (a + 1) rb le ltac:(lia)) as (IHc & IHb)
          end;
      (split;
       [ cbn [app]; unfold client.marshals, client.attempts in *;
         cbn [filter client.isMarshal client.isNewRequest List.length]; lia
       | intros k req Hin; split_in Hin;
         try discriminate;
         try (apply IHb in Hin; destruct Hin as (Hk & Hbody);
              split; [lia | rewrite Hbody; unfold client.remarshalled; reflexivity]);
         try (injection Hin as <- <-; split; [lia | cbn; rewrite ?Hmar; reflexivity]) ]).
Qed.

End HttpRetries.

(** The first iteration of the loop of the net/http client sends the bytes
    it was given; the retries after it serialize the body again. *)
Lemma http_first_iteration env c url method b result n reqBody lastErr :
  let tr := client.trace
              (client.retryLoop env c url method (Some b) result (S n) 0 reqBody lastErr) in
  client.marshals tr + 1 = client.attempts tr /\
  forall k req,
    In (client.EvDo k req) tr ->
    Body req = if k =? 0 then reqBody else client.remarshalled env (Some b) k.
Proof.
  cbv zeta. cbn [client.retryLoop]. change (0 <? 0) with false. cbv iota.
  unfold client.log, client.Authenticate.
  destruct (client.logger (client.options c));
    destruct (client.NewRequestWithContext env method url);
    try solve [stopped];
    destruct (client.auth c) as [tok | ];
    try destruct (client.Token tok =? "")%string;
    try solve [stopped];
    cbv iota beta;
    match goal with
    | |- context [client.Do env 0 ?r] => destruct (client.Do env 0 r) as [de | resp]
    end;
    try destruct (client.ReadAll resp) as [re | bodyBytes];
    try destruct ((200 <=? client.StatusCode resp) && (client.StatusCode resp <? 300));
    try destruct result as [sink | ];
    try destruct bodyBytes as [| b0 bs];
    try match goal with
        | |- context [client.json_Unmarshal env ?s ?l] =>
            destruct (client.json_Unmarshal env s l)
        end;
    try match goal with
        | |- context [client.json_Unmarshal_APIError env ?l] =>
            destruct (client.json_Unmarshal_APIError env l)
        end;
    try destruct (isClientError (client.StatusCode resp));
    unfold client.before, client.stop; cbn [client.trace];
    try match goal with
        | |- context [client.retryLoop env c url method (Some b) ?res n (0 + 1) ?rb ?le] =>
            destruct (http_retries_marshal_again env c url method b res n (0 + 1) rb le
                        ltac:(lia)) as (IHc & IHb)
        end;
    (split;
     [ cbn [app]; unfold client.marshals, client.attempts in *;
       cbn [filter client.isMarshal client.isNewRequest List.length]; lia
     | intros k req Hin; split_in Hin;
       try discriminate;
       try (apply IHb in Hin; destruct Hin as (Hk & Hbody);
            assert (Hk0 : (k =? 0) = false) by (apply Z.eqb_neq; lia);
            rewrite Hk0; exact Hbody);
       try (injection Hin as <- <-; reflexivity) ]).
Qed.

(** X29.  The net/http client serializes the body once before the loop
    and once more before every retry it makes, so it calls [json.Marshal]
    as many times as it makes attempts; the request of attempt k carries
    what the call for attempt k returned, and an empty body if that call
    failed. *)
Theorem http_body_is_serialized_again_for_every_retry
    env c method path b result jsonData :
  0 <= client.MaxRetries (client.options c) ->
  client.json_Marshal env 0 b = inr jsonData ->
  let o := client.doRequest env c method path (Some b) result in
  client.marshals (client.trace o) = client.attempts (client.trace o) /\
  forall k req,
    In (client.EvDo k req) (client.trace o) ->
    Body req = client.remarshalled env (Some b) k.
Proof.
  intros Hmax Hjson o. subst o.
  rewrite (http_doRequest_loop env c method path (Some b) result jsonData Hjson).
  assert (Hn : exists n, Z.to_nat (client.MaxRetries (client.options c) + 1) = S n)
    by (exists (Z.to_nat (client.MaxRetries (client.options c))); lia).
  destruct Hn as (n & ->).
  destruct (http_first_iteration env c (baseURL ++ path) method b result n jsonData None)
    as (Hc & Hb).
  unfold client.before. cbn [client.trace client.marshalEvents].
  split.
  - rewrite http_marshals_app, http_attempts_app.
    change (client.marshals [client.EvMarshal 0 b]) with 1.
    change (client.attempts [client.EvMarshal 0 b]) with 0. lia.
  - intros k req Hin. destruct Hin as [Hin | Hin]; [discriminate |].
    rewrite (Hb k req Hin). destruct (Z.eqb_spec k 0) as [-> | Hk]; [| reflexivity].
    unfold client.remarshalled. now rewrite Hjson.
Qed.

Lemma http_body_is_serialized_again_for_every_retry_witness :
  let o := client.doRequest (client.fixedServer 500 (Some internalError))
             (client.NewClient (Some (client.mkBearerTokenAuth "test-token")) None)
             "POST" "/api/anamericano/check"
             (Some (client.CheckPayload client.sampleCheck)) (Some IntoCheckResponse) in
  client.attempts (client.trace o) = 4 /\
  client.marshals (client.trace o) = client.attempts (client.trace o).
Proof.
  split; [reflexivity |].
  apply (http_body_is_serialized_again_for_every_retry
           (client.fixedServer 500 (Some internalError))
           (client.NewClient (Some (client.mkBearerTokenAuth "test-token")) None)
           "POST" "/api/anamericano/check" (client.CheckPayload client.sampleCheck)
           (Some IntoCheckResponse) sampleJSON).
  - vm_compute. discriminate.
  - reflexivity.
Defined.

(** X30.  Each operation of the net/http client given a nil request
    returns an error without a single call, and given a request that its
    [Validate] refuses returns "invalid request" wrapping the sentinel
    error of package request that [Validate] returned, again without a
    single call. *)
Theorem http_invalid_requests_wrap_a_sentinel env c :
  (client.trace (client.CheckPermission env c None) = [] /\
   client.err (client.CheckPermission env c None) <> None /\
   forall r, request.PermissionCheckRequest.Validate r <> None ->
             client.rejected (client.CheckPermission env c (Some r))) /\
  (client.trace (client.WritePermission env c None) = [] /\
   client.err (client.WritePermission env c None) <> None /\
   forall r, request.PermissionWriteRequest.Validate r <> None ->
             client.rejected (client.WritePermission env c (Some r))) /\
  (client.trace (client.DeletePermission env c None) = [] /\
   client.err (client.DeletePermission env c None) <> None /\
   forall r, request.PermissionDeleteRequest.Validate r <> None ->
             client.rejected (client.DeletePermission env c (Some r))) /\
  (client.trace (client.ReadPermissions env c None) = [] /\
   client.err (client.ReadPermissions env c None) <> None /\
   forall r, request.PermissionReadRequest.Validate r <> None ->
             client.rejected (client.ReadPermissions env c (Some r))) /\
  (client.trace (client.ExpandPermissions env c None) = [] /\
   client.err (client.ExpandPermissions env c None) <> None /\
   forall r, request.PermissionExpendRequest.Validate r <> None ->
             client.rejected (client.ExpandPermissions env c (Some r))) /\
  (client.trace (client.ListObjects env c None) = [] /\
   client.err (client.ListObjects env c None) <> None /\
   forall r, request.ListObjectsRequest.Validate r <> None ->
             client.rejected (client.ListObjects env c (Some r))).
Proof.
  unfold client.rejected, request.sentinels.
  split; [| split; [| split; [| split; [| split]]]];
    (split; [reflexivity | split; [discriminate |]]); intros r Hv.
  - unfold client.CheckPermission. revert Hv.
    unfold request.PermissionCheckRequest.Validate. by_empty_fields;
      intros Hv; try congruence; simpl; eauto 10.
  - unfold client.WritePermission. revert Hv.
    unfold request.PermissionWriteRequest.Validate. by_empty_fields;
      intros Hv; try congruence; simpl; eauto 10.
  - unfold client.DeletePermission. revert Hv.
    unfold request.PermissionDeleteRequest.Validate. by_empty_fields;
      intros Hv; try congruence; simpl; eauto 10.
  - unfold client.ReadPermissions. revert Hv.
    unfold request.PermissionReadRequest.Validate. by_empty_fields;
      intros Hv; try congruence; simpl; eauto 10.
  - unfold client.ExpandPermissions. revert Hv.
    unfold request.PermissionExpendRequest.Validate. by_empty_fields;
      intros Hv; try congruence; simpl; eauto 10.
  - unfold client.ListObjects. revert Hv.
    unfold request.ListObjectsRequest.Validate. by_empty_fields;
      intros Hv; try congruence; simpl; eauto 10.
Qed.

Lemma http_invalid_requests_wrap_a_sentinel_witness :
  client.rejected
    (client.ReadPermissions (client.fixedServer 200 None)
       (client.NewClient (Some (client.mkBearerTokenAuth "test-token")) None)
       (Some (request.PermissionReadRequest.mk "document" ""))).
Proof.
  destruct (http_invalid_requests_wrap_a_sentinel (client.fixedServer 200 None)
              (client.NewClient (Some (client.mkBearerTokenAuth "test-token")) None))
    as (_ & _ & _ & (_ & _ & Hread) & _).
  apply Hread. discriminate.
Defined.
